(** * brk: a command-line convenience layer over git

    Shallow embedding of [brk.go] and the properties of its handlers.

    Go strings are byte sequences and are modelled by [string] (a list of
    8-bit [ascii] characters).  Everything the program does with the outside
    world (spawning [git] and [sh], reading a line from the terminal,
    printing) is threaded through a small monad that records a trace of
    events, over an arbitrary operating system [OS]. *)

From Stdlib Require Import String Ascii List ZArith Bool Lia DecimalString.
Import ListNotations.

Local Open Scope string_scope.
Local Open Scope list_scope.

(** ** Characters the source writes as escapes *)

Definition tab : string := String (ascii_of_nat 9) "".
Definition nl : string := String (ascii_of_nat 10) "".
Definition esc : string := String (ascii_of_nat 27) "".
Definition dquote : string := String (ascii_of_nat 34) "".

(** ** The part of Go's [strings] package that brk.go calls

    The functions follow the package on byte strings.  White space is what
    [unicode.IsSpace] accepts: the bytes of Go's [asciiSpace] table (tab,
    line feed, vertical tab, form feed, carriage return, space) and the
    runes U+0085, U+00A0, U+1680, U+2000 to U+200A, U+2028, U+2029, U+202F,
    U+205F and U+3000, read in their UTF-8 encoding.  [TrimSpace] and
    [Fields] decode runes from the left (an ill-formed byte is a rune of
    width 1 that is no white space); since every byte after the first of a
    well-formed rune is a continuation byte (0x80 to 0xBF) and no encoding
    of a white space rune starts with one, the white space runes of a string
    are exactly the places where one of these encodings starts, and that is
    how [spaceWidth] finds them.  Letter case is the ASCII one: brk.go only
    compares a lowered string with [y] and [n], and no rune outside ASCII
    lowers to one of these. *)
Module strings.

(** The [asciiSpace] table. *)
Definition isSpace (c : ascii) : bool :=
  let n := nat_of_ascii c in
  (((9 <=? n) && (n <=? 13)) || (n =? 32))%nat.

(** The three-byte encodings of white space: U+1680 (E1 9A 80), U+2000 to
    U+200A (E2 80 80 to E2 80 8A), U+2028, U+2029 and U+202F (E2 80 A8,
    E2 80 A9, E2 80 AF), U+205F (E2 81 9F), U+3000 (E3 80 80). *)
Definition spaceTail (b0 b1 b2 : nat) : bool :=
  ((b0 =? 225) && (b1 =? 154) && (b2 =? 128)
   || (b0 =? 226) && (b1 =? 128)
      && ((128 <=? b2) && (b2 <=? 138) || (b2 =? 168) || (b2 =? 169) || (b2 =? 175))
   || (b0 =? 226) && (b1 =? 129) && (b2 =? 159)
   || (b0 =? 227) && (b1 =? 128) && (b2 =? 128))%nat.

(** The number of bytes of the white space rune [s] starts with, 0 when it
    starts with none.  The two-byte encodings are U+0085 (C2 85) and U+00A0
    (C2 A0). *)
Definition spaceWidth (s : string) : nat :=
  match s with
  | EmptyString => 0
  | String c0 s1 =>
      let b0 := nat_of_ascii c0 in
      if isSpace c0 then 1
      else if (b0 =? 194)%nat then
        match s1 with
        | String c1 _ =>
            let b1 := nat_of_ascii c1 in
            if ((b1 =? 133) || (b1 =? 160))%nat then 2 else 0
        | EmptyString => 0
        end
      else if ((b0 =? 225) || (b0 =? 226) || (b0 =? 227))%nat then
        match s1 with
        | String c1 (String c2 _) =>
            if spaceTail b0 (nat_of_ascii c1) (nat_of_ascii c2) then 3 else 0
        | _ => 0
        end
      else 0
  end.

Definition isEmpty (s : string) : bool :=
  match s with
  | EmptyString => true
  | String _ _ => false
  end.

(** [skip] is the number of bytes of a white space rune still to be
    dropped. *)
Fixpoint trimLeftFrom (s : string) (skip : nat) : string :=
  match s with
  | EmptyString => EmptyString
  | String c s' =>
      match skip with
      | S k => trimLeftFrom s' k
      | O =>
          match spaceWidth s with
          | S k => trimLeftFrom s' k
          | O => s
          end
      end
  end.

Definition trimLeft (s : string) : string := trimLeftFrom s O.

(** [s] is made of white space runes only, after the [skip] bytes left of
    the one being read. *)
Fixpoint allSpaceFrom (s : string) (skip : nat) : bool :=
  match s with
  | EmptyString => true
  | String c s' =>
      match skip with
      | S k => allSpaceFrom s' k
      | O =>
          match spaceWidth s with
          | S k => allSpaceFrom s' k
          | O => false
          end
      end
  end.

(** The string without the white space runes at its end: it is cut at the
    first place from which only white space follows. *)
Fixpoint trimRight (s : string) : string :=
  match s with
  | EmptyString => EmptyString
  | String c s' => if allSpaceFrom s O then EmptyString else String c (trimRight s')
  end.

(** [strings.TrimSpace(s)]: [s] without leading and trailing white space. *)
Definition TrimSpace (s : string) : string := trimRight (trimLeft s).

(** [splitFrom sep s skip cur]: [cur] is the piece being read, [skip] the
    number of bytes of a separator still to be dropped. *)
Fixpoint splitFrom (sep s : string) (skip : nat) (cur : string) : list string :=
  match s with
  | EmptyString => [cur]
  | String c s' =>
      match skip with
      | S k => splitFrom sep s' k cur
      | O =>
          if prefix sep s
          then cur :: splitFrom sep s' (String.length sep - 1) EmptyString
          else splitFrom sep s' O (cur ++ String c EmptyString)%string
      end
  end.

Fixpoint explode (s : string) : list string :=
  match s with
  | EmptyString => []
  | String c s' => String c EmptyString :: explode s'
  end.

(** [strings.Split(s, sep)]: the pieces of [s] between the occurrences of
    [sep]; with an empty [sep] the string is exploded (into bytes here, into
    UTF-8 sequences in Go; brk.go only ever splits on a line feed). *)
Definition Split (s sep : string) : list string :=
  if isEmpty sep then explode s else splitFrom sep s O EmptyString.

(** [fieldsFrom s cur skip]: [cur] is the field being read, [skip] the
    number of bytes of a white space rune still to be dropped. *)
Fixpoint fieldsFrom (s cur : string) (skip : nat) : list string :=
  match s with
  | EmptyString => if isEmpty cur then [] else [cur]
  | String c s' =>
      match skip with
      | S k => fieldsFrom s' cur k
      | O =>
          match spaceWidth s with
          | S k =>
              if isEmpty cur then fieldsFrom s' EmptyString k
              else cur :: fieldsFrom s' EmptyString k
          | O => fieldsFrom s' (cur ++ String c EmptyString)%string O
          end
      end
  end.

(** [strings.Fields(s)]: the maximal runs of [s] without white space. *)
Definition Fields (s : string) : list string := fieldsFrom s EmptyString O.

(** [strings.Contains(s, substr)]. *)
Fixpoint Contains (s substr : string) : bool :=
  prefix substr s ||
  match s with
  | EmptyString => false
  | String _ s' => Contains s' substr
  end.

Definition lowerByte (c : ascii) : ascii :=
  let n := nat_of_ascii c in
  if ((65 <=? n) && (n <=? 90))%nat then ascii_of_nat (n + 32) else c.

(** [strings.ToLower(s)]. *)
Fixpoint ToLower (s : string) : string :=
  match s with
  | EmptyString => EmptyString
  | String c s' => String (lowerByte c) (ToLower s')
  end.

End strings.

(** ** The part of Go's [fmt] package that brk.go calls *)
Module fmt.

Definition isDigit (c : ascii) : bool :=
  let n := nat_of_ascii c in ((48 <=? n) && (n <=? 57))%nat.

Definition digitVal (c : ascii) : Z := Z.of_nat (nat_of_ascii c - 48).

(** [ss.SkipSpace] of a scan without newline-as-space: white space (the
    runes of [unicode.IsSpace], which are those of the package's own table)
    is dropped, a line feed is an error ([None]).  [skip] is the number of
    bytes of a white space rune still to be dropped. *)
Fixpoint skipSpaceFrom (s : string) (skip : nat) : option string :=
  match s with
  | EmptyString => Some EmptyString
  | String c s' =>
      match skip with
      | S k => skipSpaceFrom s' k
      | O =>
          if (nat_of_ascii c =? 10)%nat then None
          else match strings.spaceWidth s with
               | S k => skipSpaceFrom s' k
               | O => Some s
               end
      end
  end.

Definition skipSpace (s : string) : option string := skipSpaceFrom s O.

(** The value of the leading run of decimal digits of [s], after [acc]. *)
Fixpoint scanNumber (s : string) (acc : Z) : Z :=
  match s with
  | EmptyString => acc
  | String c s' => if isDigit c then scanNumber s' (10 * acc + digitVal c)%Z else acc
  end.

Definition minInt : Z := (- 2 ^ 63)%Z.
Definition maxInt : Z := (2 ^ 63 - 1)%Z.

(** The digits of a token, with its sign: [strconv.ParseInt(tok, 10, 64)]. *)
Definition scanInt (s : string) (negative : bool) : option Z :=
  match s with
  | EmptyString => None
  | String c _ =>
      if isDigit c then
        let v := scanNumber s 0%Z in
        let i := if negative then (- v)%Z else v in
        if ((minInt <=? i) && (i <=? maxInt))%Z then Some i else None
      else None
  end.

(** [fmt.Sscanf(str, "%d", &x)] with a 64-bit [int]: [Some i] when [i] is
    stored into [x], [None] when the scan fails and [x] keeps its value.
    Input after the number is left unread. *)
Definition Sscanf_d (str : string) : option Z :=
  match skipSpace str with
  | None => None
  | Some s =>
      match s with
      | String "-" s' => scanInt s' true
      | String "+" s' => scanInt s' false
      | _ => scanInt s false
      end
  end.

(** The [%d] verb of [Printf]. *)
Definition itoa (i : Z) : string := NilZero.string_of_int (Z.to_int i).

End fmt.

(** ** The part of Go's [flag] package that brk.go calls

    A flag set holds string flags only: every flag brk.go declares is one. *)
Module flag.

Record FlagSet := {
  name : string;                   (* the name given to NewFlagSet *)
  formal : list (string * string); (* declared flags with their current value *)
  args : list string               (* arguments left after the flags *)
}.

(** [flag.NewFlagSet(name, flag.ExitOnError)]. *)
Definition NewFlagSet (n : string) : FlagSet :=
  {| name := n; formal := []; args := [] |}.

Fixpoint lookup (n : string) (fl : list (string * string)) : option string :=
  match fl with
  | [] => None
  | (k, v) :: fl' => if (k =? n)%string then Some v else lookup n fl'
  end.

Fixpoint set (n value : string) (fl : list (string * string)) : list (string * string) :=
  match fl with
  | [] => []
  | (k, v) :: fl' =>
      if (k =? n)%string then (k, value) :: fl' else (k, v) :: set n value fl'
  end.

(** The value of flag [n] among [fl], empty when it is not declared. *)
Definition value (fl : list (string * string)) (n : string) : string :=
  match lookup n fl with
  | Some v => v
  | None => EmptyString
  end.

Definition get (f : FlagSet) (n : string) : string := value (formal f) n.

(** [f.NArg()] and [f.Arg(i)]. *)
Definition NArg (f : FlagSet) : nat := List.length (args f).
Definition Arg (f : FlagSet) (i : nat) : string := nth i (args f) EmptyString.

(** The text before and after the first [=] found from [s] on. *)
Fixpoint cutEq (s : string) : option (string * string) :=
  match s with
  | EmptyString => None
  | String c s' =>
      if (nat_of_ascii c =? 61)%nat then Some (EmptyString, s')
      else match cutEq s' with
           | Some (l, r) => Some (String c l, r)
           | None => None
           end
  end.

Inductive parsed :=
| Done (fl : list (string * string)) (rest : list string)  (* Parse returns nil *)
| Failed (msg : string)                                    (* failf: message, usage *)
| ErrHelp.                                                 (* -h or -help: usage *)

Definition isDash (c : ascii) : bool := (nat_of_ascii c =? 45)%nat.

(** The loop of [f.Parse]: each recursive call is one [f.parseOne]. *)
Fixpoint parseArgs (fl : list (string * string)) (arguments : list string) : parsed :=
  match arguments with
  | [] => Done fl []
  | s :: rest =>
      match s with
      | String c0 (String c1 s2) =>
          if negb (isDash c0) then Done fl arguments
          else if isDash c1 && strings.isEmpty s2 then Done fl rest
          else
            let nm := if isDash c1 then s2 else String c1 s2 in
            match nm with
            | EmptyString => Failed ("bad flag syntax: " ++ s)
            | String n0 ntl =>
                if isDash n0 || (nat_of_ascii n0 =? 61)%nat
                then Failed ("bad flag syntax: " ++ s)
                else
                  let '(nm', value) :=
                    match cutEq ntl with
                    | Some (l, r) => (String n0 l, Some r)
                    | None => (nm, None)
                    end in
                  match lookup nm' fl with
                  | None =>
                      if (nm' =? "help")%string || (nm' =? "h")%string then ErrHelp
                      else Failed ("flag provided but not defined: -" ++ nm')
                  | Some _ =>
                      match value with
                      | Some v => parseArgs (set nm' v fl) rest
                      | None =>
                          match rest with
                          | v :: rest' => parseArgs (set nm' v fl) rest'
                          | [] => Failed ("flag needs an argument: -" ++ nm')
                          end
                      end
                  end
            end
      | _ => Done fl arguments
      end
  end.

(** [f.String(name, value, usage)]: declares a flag with its default.  The
    pointer Go returns is read back with [get]. *)
Definition String (f : FlagSet) (n value : string) : FlagSet :=
  {| name := name f; formal := formal f ++ [(n, value)]; args := args f |}.

End flag.

(** ** The outside world

    A child process ends with what it wrote on its standard output and with
    the error [Run]/[Output] return ([None] for a zero exit status). *)
Record Proc := { output : string; err : option string }.

(** An operating system: how it answers a spawned command line and what
    [fmt.Scanln(&v)] leaves in a fresh string variable [v] (the first word of
    the line typed, or the empty string). *)
Record OS := {
  World : Type;
  spawn : list string -> World -> Proc * World;
  scanln : World -> string * World
}.

(** What a run of the program does, in order. *)
Inductive event :=
| Stdout (text : string)          (* fmt.Print, Println, Printf *)
| Stderr (text : string)          (* the flag package's error line *)
| Usage (flagset : string)        (* FlagSet.Usage() *)
| Spawn (argv : list string)      (* a child whose output is captured or dropped *)
| Forward (argv : list string)    (* a child wired to the terminal *)
| Stdin (text : string).          (* one fmt.Scanln *)

Inductive result (A : Type) :=
| Ret (a : A)          (* the function returns *)
| Exit (code : Z)      (* os.Exit *)
| Panic.               (* run-time panic: index out of range *)

Arguments Ret {A} a.
Arguments Exit {A} code.
Arguments Panic {A}.

(** The shell command lines handed to [execute] in a trace. *)
Fixpoint shellCommands (t : list event) : list string :=
  match t with
  | [] => []
  | Forward [sh; c; command] :: t' =>
      if ((sh =? "sh") && (c =? "-c"))%string then command :: shellCommands t'
      else shellCommands t'
  | _ :: t' => shellCommands t'
  end.

(** The text printed on standard output in a trace. *)
Fixpoint printed (t : list event) : list string :=
  match t with
  | [] => []
  | Stdout s :: t' => s :: printed t'
  | _ :: t' => printed t'
  end.

(** The child processes started in a trace, captured or forwarded. *)
Fixpoint spawned (t : list event) : list (list string) :=
  match t with
  | [] => []
  | Spawn a :: t' => a :: spawned t'
  | Forward a :: t' => a :: spawned t'
  | _ :: t' => spawned t'
  end.

Section Program.

Variable os : OS.

(** A computation: from a world to an outcome, the events it caused and the
    world it leaves. *)
Definition M (A : Type) : Type := World os -> result A * list event * World os.

Definition outcome {A} (r : result A * list event * World os) : result A := fst (fst r).
Definition trace {A} (r : result A * list event * World os) : list event := snd (fst r).
Definition world {A} (r : result A * list event * World os) : World os := snd r.

Definition ret {A} (a : A) : M A := fun w => (Ret a, [], w).

(** Sequencing: [f] runs in the world [m] leaves, unless [m] ended the
    process. *)
Definition bind {A B} (m : M A) (f : A -> M B) : M B := fun w =>
  let r := m w in
  match outcome r with
  | Ret a =>
      let r' := f a (world r) in
      (outcome r', trace r ++ trace r', world r')
  | Exit c => (Exit c, trace r, world r)
  | Panic => (Panic, trace r, world r)
  end.

Notation "x <- m ;; k" := (bind m (fun x => k))
  (at level 100, m at next level, right associativity).
Notation "m ;; k" := (bind m (fun _ => k))
  (at level 100, right associativity).

Definition emit (e : event) : M unit := fun w => (Ret tt, [e], w).

(** [fmt.Print(s)]; [Println] and [Printf] are written with their newline. *)
Definition print (s : string) : M unit := emit (Stdout s).

(** [os.Exit(code)]. *)
Definition exit {A} (code : Z) : M A := fun w => (Exit code, [], w).

Definition panic {A} : M A := fun w => (Panic, [], w).

(** [exec.Command(argv...).Output()], and [.Run()] with no stream set. *)
Definition run (argv : list string) : M Proc := fun w =>
  (Ret (fst (spawn os argv w)), [Spawn argv], snd (spawn os argv w)).

(** [cmd.Run()] with [cmd.Stdout] and [cmd.Stderr] set to the terminal. *)
Definition runForward (argv : list string) : M (option string) := fun w =>
  (Ret (err (fst (spawn os argv w))), [Forward argv], snd (spawn os argv w)).

(** [var v string; fmt.Scanln(&v)]. *)
Definition Scanln : M string := fun w =>
  (Ret (fst (scanln os w)), [Stdin (fst (scanln os w))], snd (scanln os w)).

(** [for _, x := range l { body(x) }]. *)
Fixpoint forEach {A} (body : A -> M unit) (l : list A) : M unit :=
  match l with
  | [] => ret tt
  | x :: l' => body x ;; forEach body l'
  end.

(** [for i, x := range l { body(i, x) }], from index [i]. *)
Fixpoint forRange {A} (body : Z -> A -> M unit) (i : Z) (l : list A) : M unit :=
  match l with
  | [] => ret tt
  | x :: l' => body i x ;; forRange body (i + 1)%Z l'
  end.

(** [l[i]]: out of range is a run-time panic. *)
Definition index (l : list string) (i : Z) : M string :=
  if (i <? 0)%Z then panic
  else match nth_error l (Z.to_nat i) with
       | Some x => ret x
       | None => panic
       end.

(** [f.Parse(arguments)] of a flag set made with [flag.ExitOnError]: a bad
    flag prints its message and the usage and exits with status 2, a request
    for help prints the usage and exits with status 0. *)
Definition Parse (f : flag.FlagSet) (arguments : list string) : M flag.FlagSet :=
  match flag.parseArgs (flag.formal f) arguments with
  | flag.Done fl rest =>
      ret {| flag.name := flag.name f; flag.formal := fl; flag.args := rest |}
  | flag.Failed msg =>
      emit (Stderr (msg ++ nl)) ;; emit (Usage (flag.name f)) ;; exit 2
  | flag.ErrHelp =>
      emit (Usage (flag.name f)) ;; exit 0
  end.

(** *** brk.go *)

Definition helpText : string :=
  ("Usage: brk <command> [options]" ++ nl ++
   nl ++
   "Commands:" ++ nl ++
   "  update      Jump to branch, fetch origin, and rebase" ++ nl ++
   "  refresh     Merge branch into the current branch" ++ nl ++
   "  rehydrate   Rebase on a specific branch" ++ nl ++
   "  split       Create a new branch" ++ nl ++
   "  push        Push to remote" ++ nl ++
   "  mv          Rename branch" ++ nl ++
   "  cleanup     Cleanup branches older than 1 month" ++ nl ++
   "  cherry-log  List status of the branch commits against master" ++ nl ++
   "  hide        Stash current changes" ++ nl ++
   "  pack        Propose changes to commit" ++ nl ++
   "  recent" ++ tab ++ "  Show 5 most recent branches" ++ nl ++
   "  shove       Amend changes to the previous commit" ++ nl ++
   "  status      List changes in color and propose a git diff in bat" ++ nl ++
   nl ++
   "Use " ++ dquote ++ "brk <command> --help" ++ dquote ++
   " for more information on a specific command.")%string.

Definition displayHelp : M unit := print (helpText ++ nl).

Definition checkGitRepo : M unit :=
  p <- run ["git"; "rev-parse"; "--is-inside-work-tree"] ;;
  match err p with
  | Some _ =>
      print ("Error: Not a git repository. Please run this command inside a git repository." ++ nl) ;;
      exit 1
  | None => ret tt
  end.

Definition execute (command : string) : M unit :=
  print ("Executing: " ++ command ++ nl) ;;
  e <- runForward ["sh"; "-c"; command] ;;
  match e with
  | Some msg => print ("Error executing command: " ++ msg ++ nl)
  | None => ret tt
  end.

Definition currentBranch : M string :=
  p <- run ["git"; "branch"; "--show-current"] ;;
  match err p with
  | Some msg => print ("Error getting current branch: " ++ msg ++ nl) ;; ret ""%string
  | None => ret (strings.TrimSpace (output p))
  end.

(** The end of [recent], from the word [choice] read at the prompt. *)
Definition selectBranch (branches : list string) (choice : string) : M unit :=
  if (choice =? "")%string then print ("No branch selected. Exiting." ++ nl)
  else
    let selectedIndex :=
      match fmt.Sscanf_d choice with
      | Some i => i
      | None => (-1)%Z
      end in
    if ((selectedIndex <? 1) || (selectedIndex >? Z.of_nat (List.length branches)))%Z
    then print ("Invalid selection. Exiting." ++ nl)
    else
      selectedBranch <- index branches (selectedIndex - 1) ;;
      execute ("git checkout " ++ selectedBranch).

Definition recent : M unit :=
  p <- run ["sh"; "-c";
            "git branch --sort=-committerdate --format='%(refname:short)' | head -n 5"] ;;
  match err p with
  | Some msg => print ("Error fetching recent branches: " ++ msg ++ nl)
  | None =>
      let branches := strings.Split (strings.TrimSpace (output p)) nl in
      if (List.length branches =? 0)%nat then print ("No recent branches found." ++ nl)
      else
        print ("Recent branches:" ++ nl) ;;
        forRange (fun i branch =>
                    print ("[" ++ fmt.itoa (i + 1) ++ "] " ++ branch ++ nl)) 0%Z branches ;;
        print "Enter the number of the branch to switch to (or press Enter to exit): " ;;
        choice <- Scanln ;;
        selectBranch branches choice
  end.

Definition update (args : list string) : M unit :=
  let branch := flag.NewFlagSet "update" in
  let branch := flag.String branch "branch" "master" in
  let branch := flag.String branch "remote" "origin" in
  branch <- Parse branch args ;;
  let branchName := flag.get branch "branch" in
  let remoteName := flag.get branch "remote" in
  execute ("git checkout " ++ branchName) ;;
  execute ("git fetch " ++ remoteName) ;;
  execute ("git rebase " ++ remoteName ++ "/" ++ branchName).

Definition refresh (args : list string) : M unit :=
  let branch := flag.String (flag.NewFlagSet "refresh") "branch" "master" in
  branch <- Parse branch args ;;
  execute ("git merge " ++ flag.get branch "branch").

Definition rehydrate (args : list string) : M unit :=
  let branch := flag.String (flag.NewFlagSet "rehydrate") "branch" "master" in
  branch <- Parse branch args ;;
  execute ("git rebase " ++ flag.get branch "branch").

(** The body of the loop of [cherryLog], for one line of [git cherry]. *)
Definition cherryLine (line : string) : M unit :=
  match strings.Fields line with
  | sign :: commitHash :: _ =>
      p <- run ["git"; "log"; "--oneline"; "-n"; "1"; commitHash] ;;
      match err p with
      | Some msg =>
          print ("Error fetching log for commit " ++ commitHash ++ ": " ++ msg ++ nl)
      | None =>
          let logMessage := strings.TrimSpace (output p) in
          if (sign =? "+")%string then print ("[!master] " ++ logMessage ++ nl)
          else if (sign =? "-")%string
          then print (esc ++ "[90m[master] " ++ logMessage ++ esc ++ "[0m" ++ nl)
          else ret tt
      end
  | _ => ret tt
  end.

Definition cherryLog (branch : string) : M unit :=
  checkGitRepo ;;
  let baseBranch := "master"%string in
  if (branch =? "")%string then print ("Usage: brk cherry-log <branch>" ++ nl)
  else
    p <- run ["git"; "cherry"; baseBranch; branch] ;;
    match err p with
    | Some msg => print ("Error running git cherry: " ++ msg ++ nl)
    | None =>
        let lines := strings.Split (strings.TrimSpace (output p)) nl in
        if (List.length lines =? 0)%nat
        then print ("No unique commits found in branch '" ++ branch ++ "'." ++ nl)
        else
          print ("Commits unique to '" ++ branch ++ "' compared to '" ++ baseBranch
                 ++ "':" ++ nl) ;;
          forEach cherryLine lines
    end.

Definition split (args : list string) : M unit :=
  let split := flag.String (flag.NewFlagSet "split") "name" "" in
  split <- Parse split args ;;
  let branchName := flag.get split "name" in
  if (branchName =? "")%string then
    print ("Error: Branch name is required." ++ nl) ;;
    emit (Usage (flag.name split))
  else execute ("git checkout -b " ++ branchName).

Definition push (args : list string) : M unit :=
  let push := flag.NewFlagSet "push" in
  let push := flag.String push "branch" "" in
  let push := flag.String push "remote" "origin" in
  push <- Parse push args ;;
  let remoteName := flag.get push "remote" in
  branchName <- (if (flag.get push "branch" =? "")%string then currentBranch
                 else ret (flag.get push "branch")) ;;
  execute ("git push " ++ remoteName ++ " " ++ branchName).

Definition renameBranch (args : list string) : M unit :=
  let mv := flag.NewFlagSet "mv" in
  let mv := flag.String mv "name" "" in
  let mv := flag.String mv "new-name" "" in
  mv <- Parse mv args ;;
  let oldName := flag.get mv "name" in
  let newName := flag.get mv "new-name" in
  let named (oldName newName : string) : M unit :=
    oldName <- (if (oldName =? "")%string then currentBranch else ret oldName) ;;
    if ((oldName =? "") || (newName =? ""))%string then
      print ("Error: Both old and new branch names are required." ++ nl) ;;
      emit (Usage (flag.name mv))
    else execute ("git branch -m " ++ oldName ++ " " ++ newName) in
  if (newName =? "")%string then
    if (flag.NArg mv =? 1)%nat then
      let newName := flag.Arg mv 0 in
      oldName <- currentBranch ;;
      named oldName newName
    else
      print ("Error: New branch name is required." ++ nl) ;;
      emit (Usage (flag.name mv))
  else named oldName newName.

(** The body of the loop of [cleanup], for one line of the branch list. *)
Definition cleanupBranch (branchInfo : string) : M unit :=
  match strings.Fields branchInfo with
  | branch :: age :: _ =>
      if strings.Contains age "month" || strings.Contains age "year" then
        print ("Branch: " ++ branch ++ ", Age: " ++ age ++ ". Delete? [y/N] ") ;;
        response <- Scanln ;;
        if (strings.ToLower response =? "y")%string
        then execute ("git branch -d " ++ branch)
        else ret tt
      else ret tt
  | _ => ret tt
  end.

Definition cleanup : M unit :=
  p <- run ["git"; "branch"; "--format"; "%(refname:short) %(committerdate:relative)"] ;;
  match err p with
  | Some msg => print ("Error getting branch list: " ++ msg ++ nl)
  | None =>
      let branches := strings.Split (strings.TrimSpace (output p)) nl in
      forEach cleanupBranch branches
  end.

Definition stash : M unit := execute "git stash".

Definition pack : M unit :=
  execute "git add -p" ;;
  print "Proceed with commit? [Y/n]: " ;;
  response <- Scanln ;;
  if (strings.ToLower response =? "n")%string then ret tt
  else execute "git commit --verbose".

Definition shove : M unit :=
  execute "git add -p" ;;
  execute "git commit --amend --no-edit".

Definition status : M unit :=
  execute "git status --short --branch" ;;
  print (nl ++ "Proceed with diff? [Y/n]: ") ;;
  response <- Scanln ;;
  if ((strings.ToLower response =? "y") || (response =? ""))%string
  then execute "git diff | bat --paging=always"
  else ret tt.

(** [main], from [os.Args]. *)
Definition main (osArgs : list string) : M unit :=
  checkGitRepo ;;
  match osArgs with
  | _ :: command :: args =>
      if (command =? "update")%string then update args
      else if (command =? "refresh")%string then refresh args
      else if (command =? "rehydrate")%string then rehydrate args
      else if (command =? "split")%string then split args
      else if (command =? "push")%string then push args
      else if (command =? "mv")%string then renameBranch args
      else if (command =? "cleanup")%string then cleanup
      else if (command =? "hide")%string then stash
      else if (command =? "pack")%string then pack
      else if (command =? "recent")%string then recent
      else if (command =? "shove")%string then shove
      else if (command =? "status")%string then status
      else if (command =? "cherry-log")%string then
        match args with
        | [] => print ("Usage: brk cherry-log <branch>" ++ nl)
        | branch :: _ => cherryLog branch
        end
      else
        print ("Unknown command: " ++ command ++ nl) ;;
        displayHelp
  | _ => displayHelp
  end.

End Program.

(** ** Reading traces *)

(** The events of one [execute command] whose child ended with error [e]. *)
Definition executed (command : string) (e : option string) : list event :=
  Stdout ("Executing: " ++ command ++ nl)
  :: Forward ["sh"; "-c"; command]
  :: match e with
     | Some msg => [Stdout ("Error executing command: " ++ msg ++ nl)]
     | None => []
     end.

(** A scripted operating system: every command line is answered by
    [answers], whatever was run before; the words typed at the terminal are
    consumed one per [Scanln]. *)
Definition scripted (answers : list string -> Proc) : OS :=
  {| World := list string;
     spawn := fun argv w => (answers argv, w);
     scanln := fun w =>
       match w with
       | [] => (EmptyString, [])
       | s :: w' => (s, w')
       end |}.

Definition ok (out : string) : Proc := {| output := out; err := None |}.
Definition failed (msg : string) : Proc := {| output := ""; err := Some msg |}.

(** A machine on which every child process fails. *)
Definition allFail : OS := scripted (fun _ => failed "exit status 1").

Fixpoint sameArgv (a b : list string) : bool :=
  match a, b with
  | [], [] => true
  | x :: a', y :: b' => (x =? y)%string && sameArgv a' b'
  | _, _ => false
  end.

(** The answer a table of command lines gives, [ok ""] for the others. *)
Fixpoint answer (table : list (list string * Proc)) (argv : list string) : Proc :=
  match table with
  | [] => ok ""
  | (a, p) :: table' => if sameArgv a argv then p else answer table' argv
  end.

(** The command lines brk.go runs outside [execute]. *)
Definition revParse : list string := ["git"; "rev-parse"; "--is-inside-work-tree"].
Definition showCurrent : list string := ["git"; "branch"; "--show-current"].
Definition gitCherry (base branch : string) : list string := ["git"; "cherry"; base; branch].
Definition gitLog (commitHash : string) : list string :=
  ["git"; "log"; "--oneline"; "-n"; "1"; commitHash].
Definition branchAges : list string :=
  ["git"; "branch"; "--format"; "%(refname:short) %(committerdate:relative)"].
Definition recentBranches : list string :=
  ["sh"; "-c"; "git branch --sort=-committerdate --format='%(refname:short)' | head -n 5"].

(** A working tree on branch [feature]. *)
Definition onFeature : OS :=
  scripted (answer [(showCurrent, ok ("feature" ++ nl))]).

(** A working tree whose branch [feature] has one commit of its own, one
    that master already has, and a [git cherry] that adds two odd lines. *)
Definition withCherry : OS :=
  scripted (answer
    [(gitCherry "master" "feature",
      ok ("+ abc123" ++ nl ++ "- def456" ++ nl ++ "garbage" ++ nl ++ "* 0a1b2c" ++ nl));
     (gitLog "abc123", ok ("abc123 Add parser" ++ nl));
     (gitLog "def456", ok ("def456 Fix typo" ++ nl));
     (gitLog "0a1b2c", ok ("0a1b2c Merge" ++ nl))]).

(** A working tree in which every command succeeds and prints nothing. *)
Definition quiet : OS := scripted (answer []).

(** The numbered entries [recent] prints for [branches], the first one being
    numbered [i + 1]. *)
Fixpoint listing (i : Z) (branches : list string) : list event :=
  match branches with
  | [] => []
  | branch :: branches' =>
      Stdout ("[" ++ fmt.itoa (i + 1) ++ "] " ++ branch ++ nl) :: listing (i + 1) branches'
  end.

Definition recentPrompt : string :=
  "Enter the number of the branch to switch to (or press Enter to exit): ".

(** A working tree with five branches. *)
Definition fiveBranches : OS :=
  scripted (answer
    [(recentBranches,
      ok ("main" ++ nl ++ "dev" ++ nl ++ "feature" ++ nl ++ "hotfix" ++ nl ++ "old" ++ nl))]).


(** A bare repository: the child of the repository check succeeds and
    prints [false]. *)
Definition bare : OS :=
  scripted (answer [(revParse, ok ("false" ++ nl))]).

(** White space beyond ASCII, in UTF-8: the no-break space U+00A0 and the
    line separator U+2028. *)
Definition nbsp : string :=
  String (ascii_of_nat 194) (String (ascii_of_nat 160) "").
Definition lineSeparator : string :=
  String (ascii_of_nat 226) (String (ascii_of_nat 128) (String (ascii_of_nat 168) "")).

(** A working tree with a fresh branch and two stale ones, as
    [git branch --format] prints them. *)
Definition staleBranches : OS :=
  scripted (answer
    [(branchAges,
      ok ("main 3 days ago" ++ nl ++ "old-feature 3 months ago" ++ nl
          ++ "ancient 2 years ago" ++ nl))]).

(** A string of decimal digits. *)
Fixpoint allDigits (s : string) : bool :=
  match s with
  | EmptyString => true
  | String c s' => fmt.isDigit c && allDigits s'
  end.

(** How a handler ends when [f.Parse] does not return: the outcome and the
    events, [None] when the arguments are accepted. *)
Definition flagStop (flagset : string) (p : flag.parsed) : option (result unit * list event) :=
  match p with
  | flag.Done _ _ => None
  | flag.Failed msg => Some (Exit 2, [Stderr (msg ++ nl); Usage flagset])
  | flag.ErrHelp => Some (Exit 0, [Usage flagset])
  end.

(** The second fields of the lines that have at least two fields. *)
Fixpoint commitHashes (lines : list string) : list string :=
  match lines with
  | [] => []
  | line :: lines' =>
      match strings.Fields line with
      | _ :: commitHash :: _ => commitHash :: commitHashes lines'
      | _ => commitHashes lines'
      end
  end.

(** No white space rune starts anywhere in [s]. *)
Fixpoint noSpace (s : string) : bool :=
  match s with
  | EmptyString => true
  | String c s' => (strings.spaceWidth s =? 0)%nat && noSpace s'
  end.

(** No white space rune starts at one of the first [n] bytes of [s]. *)
Fixpoint cleanPrefix (n : nat) (s : string) : bool :=
  match n, s with
  | S n', String c s' => (strings.spaceWidth s =? 0)%nat && cleanPrefix n' s'
  | _, _ => true
  end.

(** No byte of [s] is [c]. *)
Fixpoint without (c : ascii) (s : string) : bool :=
  match s with
  | EmptyString => true
  | String a s' => negb (Ascii.eqb a c) && without c s'
  end.

(** The branch name [currentBranch] makes of the answer of its child. *)
Definition branchReported (p : Proc) : string :=
  match err p with
  | Some _ => EmptyString
  | None => strings.TrimSpace (output p)
  end.

(** A working tree where [git branch --show-current] fails. *)
Definition noCurrentBranch : OS :=
  scripted (answer [(showCurrent, failed "exit status 128")]).

(** [m] never panics: in every world it returns, or exits with one of
    [codes]. *)
Definition exitsWith (os : OS) {A} (codes : list Z) (m : M os A) : Prop :=
  forall w, (exists a, outcome os (m w) = Ret a)
            \/ (exists c, In c codes /\ outcome os (m w) = Exit c).

(** The command names [main] knows. *)
Definition commandNames : list string :=
  ["update"; "refresh"; "rehydrate"; "split"; "push"; "mv"; "cleanup"; "hide"; "pack";
   "recent"; "shove"; "status"; "cherry-log"]%string.

(** The run [r], after the events [t]. *)
Definition preceded (os : OS) {A} (t : list event)
    (r : result A * list event * World os) : result A * list event * World os :=
  (outcome os r, t ++ trace os r, world os r).

(** The deletions [cleanup] can ask about: one per line whose second field
    holds the word month or year, for the branch named by its first field. *)
Fixpoint deletions (lines : list string) : list string :=
  match lines with
  | [] => []
  | line :: lines' =>
      match strings.Fields line with
      | branch :: age :: _ =>
          if strings.Contains age "month" || strings.Contains age "year"
          then ("git branch -d " ++ branch)%string :: deletions lines'
          else deletions lines'
      | _ => deletions lines'
      end
  end.

(** The branches [cleanup] asks about: the first fields of those lines. *)
Fixpoint candidates (lines : list string) : list string :=
  match lines with
  | [] => []
  | line :: lines' =>
      match strings.Fields line with
      | branch :: age :: _ =>
          if strings.Contains age "month" || strings.Contains age "year"
          then branch :: candidates lines'
          else candidates lines'
      | _ => candidates lines'
      end
  end.

(** One word: not empty, and without white space. *)
Definition word (s : string) : Prop := s <> EmptyString /\ noSpace s = true.

(** The words read from the terminal in a trace. *)
Fixpoint typed (t : list event) : list string :=
  match t with
  | [] => []
  | Stdin s :: t' => s :: typed t'
  | _ :: t' => typed t'
  end.

(** A forgotten branch whose age is printed in one word. *)
Definition oneWordAges : OS :=
  scripted (answer [(branchAges, ok ("main 3days" ++ nl ++ "topic 5months" ++ nl
                                     ++ "legacy 2years" ++ nl))]).

(** An argument at which the flag package stops reading flags: shorter than
    two bytes, or not starting with a dash. *)
Definition positional (a : string) : bool :=
  match a with
  | String c (String _ _) => negb (flag.isDash c)
  | _ => true
  end.

(** [s] begins with a decimal digit. *)
Definition startsWithDigit (s : string) : bool :=
  match s with
  | String c _ => fmt.isDigit c
  | EmptyString => false
  end.

(** ** Properties *)

Section Laws.

Variable os : OS.

Lemma run_eta {A} (r : result A * list event * World os) :
  (outcome os r, trace os r, world os r) = r.
Proof. destruct r as [[a t] w]. reflexivity. Qed.

Lemma bind_ret {A B} (a : A) (f : A -> M os B) w :
  bind os (ret os a) f w = f a w.
Proof. unfold bind, ret. cbn [outcome trace world fst snd app]. apply run_eta. Qed.

Lemma bind_Ret {A B} (m : M os A) (f : A -> M os B) w a t w1 :
  m w = (Ret a, t, w1) ->
  bind os m f w = (outcome os (f a w1), t ++ trace os (f a w1), world os (f a w1)).
Proof. intros H. unfold bind. rewrite H. reflexivity. Qed.

Lemma bind_Exit {A B} (m : M os A) (f : A -> M os B) w c t w1 :
  m w = (Exit c, t, w1) -> bind os m f w = (Exit c, t, w1).
Proof. intros H. unfold bind. rewrite H. reflexivity. Qed.

Lemma bind_run {B} argv (f : Proc -> M os B) w :
  bind os (run os argv) f w =
  (outcome os (f (fst (spawn os argv w)) (snd (spawn os argv w))),
   Spawn argv :: trace os (f (fst (spawn os argv w)) (snd (spawn os argv w))),
   world os (f (fst (spawn os argv w)) (snd (spawn os argv w)))).
Proof. reflexivity. Qed.

Lemma bind_print {B} text (f : unit -> M os B) w :
  bind os (print os text) f w =
  (outcome os (f tt w), Stdout text :: trace os (f tt w), world os (f tt w)).
Proof. reflexivity. Qed.

Lemma checkGitRepo_ok w :
  err (fst (spawn os revParse w)) = None ->
  checkGitRepo os w = (Ret tt, [Spawn revParse], snd (spawn os revParse w)).
Proof.
  intros H. unfold checkGitRepo. rewrite bind_run. fold revParse. rewrite H. reflexivity.
Qed.

Lemma checkGitRepo_fail w :
  err (fst (spawn os revParse w)) <> None ->
  checkGitRepo os w =
  (Exit 1,
   [Spawn revParse;
    Stdout ("Error: Not a git repository. Please run this command inside a git repository." ++ nl)],
   snd (spawn os revParse w)).
Proof.
  intros H. unfold checkGitRepo. rewrite bind_run. fold revParse.
  destruct (err (fst (spawn os revParse w))); [reflexivity | congruence].
Qed.

Lemma bind_emit {B} (e : event) (f : unit -> M os B) w :
  bind os (emit os e) f w =
  (outcome os (f tt w), e :: trace os (f tt w), world os (f tt w)).
Proof. reflexivity. Qed.

Lemma execute_run command w :
  execute os command w =
  (Ret tt,
   executed command (err (fst (spawn os ["sh"; "-c"; command] w))),
   snd (spawn os ["sh"; "-c"; command] w)).
Proof.
  unfold execute, bind, print, emit, runForward, executed, outcome, trace, world.
  cbn [fst snd app].
  destruct (err (fst (spawn os ["sh"; "-c"; command] w))); reflexivity.
Qed.

Lemma bind_execute {B} command (f : unit -> M os B) w :
  bind os (execute os command) f w =
  let r := f tt (snd (spawn os ["sh"; "-c"; command] w)) in
  (outcome os r,
   executed command (err (fst (spawn os ["sh"; "-c"; command] w))) ++ trace os r,
   world os r).
Proof. unfold bind at 1. rewrite execute_run. reflexivity. Qed.

Lemma shellCommands_app t1 t2 :
  shellCommands (t1 ++ t2) = shellCommands t1 ++ shellCommands t2.
Proof.
  induction t1 as [|e t1 IH]; [reflexivity|].
  destruct e; cbn [app shellCommands]; try exact IH.
  destruct argv as [|a [|b [|c [|d l]]]]; try exact IH.
  destruct ((a =? "sh") && (b =? "-c"))%string; cbn [app]; now rewrite IH.
Qed.

Lemma shellCommands_executed command e :
  shellCommands (executed command e) = [command].
Proof. destruct e; reflexivity. Qed.

End Laws.

(** *** update *)

Lemma update_run (os : OS) args fl rest (w : World os) :
  flag.parseArgs [("branch", "master"); ("remote", "origin")] args = flag.Done fl rest ->
  let b := flag.value fl "branch" in
  let r := flag.value fl "remote" in
  exists e1 e2 e3 w',
    update os args w =
    (Ret tt,
     executed ("git checkout " ++ b) e1
     ++ executed ("git fetch " ++ r) e2
     ++ executed ("git rebase " ++ r ++ "/" ++ b) e3,
     w').
Proof.
  intros H b r. unfold update, Parse.
  cbn [flag.String flag.NewFlagSet flag.formal flag.name flag.args app].
  rewrite H.
  unfold bind at 1. cbn [ret outcome trace world fst snd flag.get flag.formal app].
  fold b r.
  rewrite !bind_execute, execute_run. cbn [outcome trace world fst snd].
  do 4 eexists. reflexivity.
Qed.

(** C6.  Whatever branch [b] and remote [r] the flags resolve to (master and
    origin when they are not given), [update] hands exactly three command
    lines to the shell, in this order: checkout of [b], fetch of [r], rebase
    onto [r/b].  The three are run on every operating system and in every
    world, hence whether or not an earlier one failed: the trace is the three
    [executed] blocks, each with the error its own child returned. *)
Theorem update_three_commands_unconditionally :
  forall (os : OS) (args : list string) fl rest (w : World os),
    flag.parseArgs [("branch", "master"); ("remote", "origin")] args = flag.Done fl rest ->
    let b := flag.value fl "branch" in
    let r := flag.value fl "remote" in
    (exists e1 e2 e3,
        trace os (update os args w) =
        executed ("git checkout " ++ b) e1
        ++ executed ("git fetch " ++ r) e2
        ++ executed ("git rebase " ++ r ++ "/" ++ b) e3)
    /\ outcome os (update os args w) = Ret tt
    /\ shellCommands (trace os (update os args w)) =
       [("git checkout " ++ b)%string;
        ("git fetch " ++ r)%string;
        ("git rebase " ++ r ++ "/" ++ b)%string]
    /\ (args = [] -> b = "master"%string /\ r = "origin"%string)
    /\ (forall x, args = ["-branch"; x] -> b = x /\ r = "origin"%string)
    /\ (forall x, args = ["-remote"; x] -> b = "master"%string /\ r = x).
Proof.
  intros os args fl rest w H b r.
  destruct (update_run os args fl rest w H) as (e1 & e2 & e3 & w' & E).
  fold b r in E. rewrite E. cbn [trace outcome fst snd].
  split; [exists e1, e2, e3; reflexivity|].
  split; [reflexivity|].
  split; [rewrite !shellCommands_app, !shellCommands_executed; reflexivity|].
  split; [|split].
  - intros ->. cbn in H. injection H as <- _. split; reflexivity.
  - intros x ->. cbn in H. injection H as <- _. split; reflexivity.
  - intros x ->. cbn in H. injection H as <- _. split; reflexivity.
Qed.

(** On a machine where every child process fails, [update] with explicit
    flags still runs its three commands, each followed by its error line. *)
Lemma update_three_commands_witness :
  flag.parseArgs [("branch", "master"); ("remote", "origin")]
                 ["-branch"; "main"; "-remote"; "upstream"]
  = flag.Done [("branch", "main"); ("remote", "upstream")] []
  /\ trace allFail (update allFail ["-branch"; "main"; "-remote"; "upstream"] []) =
     executed "git checkout main" (Some "exit status 1")
     ++ executed "git fetch upstream" (Some "exit status 1")
     ++ executed "git rebase upstream/main" (Some "exit status 1")
  /\ shellCommands (trace allFail (update allFail ["-branch"; "main"; "-remote"; "upstream"] []))
     = ["git checkout main"; "git fetch upstream"; "git rebase upstream/main"].
Proof.
  split; [reflexivity|].
  split; [reflexivity|].
  exact (proj1 (proj2 (proj2
    (update_three_commands_unconditionally allFail
       ["-branch"; "main"; "-remote"; "upstream"]
       [("branch", "main"); ("remote", "upstream")] [] [] eq_refl)))).
Defined.

(** *** split *)

(** C7.  With an empty branch name [split] prints its error and the usage
    text of its flag set and starts no process at all; with a non-empty name
    it hands exactly one command line to the shell, the creation of that
    branch, and starts nothing else. *)
Theorem split_empty_name_or_one_command :
  forall (os : OS) (args : list string) fl rest (w : World os),
    flag.parseArgs [("name", "")] args = flag.Done fl rest ->
    let n := flag.value fl "name" in
    (n = ""%string ->
     split os args w =
     (Ret tt, [Stdout ("Error: Branch name is required." ++ nl); Usage "split"], w)
     /\ shellCommands (trace os (split os args w)) = []
     /\ spawned (trace os (split os args w)) = [])
    /\ (n <> ""%string ->
        (exists e, trace os (split os args w) = executed ("git checkout -b " ++ n) e)
        /\ shellCommands (trace os (split os args w)) = [("git checkout -b " ++ n)%string]
        /\ spawned (trace os (split os args w)) = [["sh"; "-c"; ("git checkout -b " ++ n)%string]]).
Proof.
  intros os args fl rest w H n.
  assert (E : split os args w =
              if (n =? "")%string
              then (Ret tt, [Stdout ("Error: Branch name is required." ++ nl); Usage "split"], w)
              else execute os ("git checkout -b " ++ n) w).
  { unfold split, Parse.
    cbn [flag.String flag.NewFlagSet flag.formal flag.name flag.args app].
    rewrite H, bind_ret. unfold flag.get. cbn [flag.formal flag.name]. fold n.
    destruct (n =? "")%string; reflexivity. }
  rewrite E. split; intros Hn.
  - rewrite (proj2 (String.eqb_eq n "") Hn). repeat split.
  - rewrite (proj2 (String.eqb_neq n "") Hn), execute_run.
    cbn [trace fst snd]. repeat split.
    + eexists. reflexivity.
    + apply shellCommands_executed.
    + destruct (err _); reflexivity.
Qed.

Lemma split_witness :
  (spawned (trace allFail (split allFail ["-name"; ""] [])) = []
   /\ printed (trace allFail (split allFail ["-name"; ""] []))
      = [("Error: Branch name is required." ++ nl)%string])
  /\ shellCommands (trace allFail (split allFail ["--name=topic"] [])) = ["git checkout -b topic"].
Proof.
  split.
  - pose proof (proj1 (split_empty_name_or_one_command allFail ["-name"; ""]
                         [("name", "")] [] [] eq_refl) eq_refl) as (E & _ & S).
    split; [exact S|]. rewrite E. reflexivity.
  - refine (proj1 (proj2 (proj2 (split_empty_name_or_one_command allFail ["--name=topic"]
                         [("name", "topic")] [] [] eq_refl) _))).
    discriminate.
Defined.

(** *** mv *)

Lemma currentBranch_run (os : OS) (w : World os) :
  exists cur t,
    currentBranch os w = (Ret cur, t, snd (spawn os ["git"; "branch"; "--show-current"] w))
    /\ shellCommands t = [].
Proof.
  unfold currentBranch, bind, run, print, emit, ret.
  cbn [outcome trace world fst snd app].
  destruct (err (fst (spawn os _ w))); do 2 eexists; split; reflexivity.
Qed.

Lemma currentBranch_quiet (os : OS) (w : World os) r t w1 :
  currentBranch os w = (r, t, w1) -> shellCommands t = [].
Proof.
  destruct (currentBranch_run os w) as (cur & t' & E & S).
  rewrite E. intros [= _ <- _]. exact S.
Qed.

(** C8.  [mv] with no new name from the flags and exactly one positional
    argument [a] takes [a] as the new name and asks [currentBranch] for the
    old one (the -name flag plays no part on this path).  With [cur] the name
    [currentBranch] reports: when [cur] and [a] are both non-empty the run is
    that query followed by the single command [git branch -m cur a]; when [a]
    is empty no command is issued; when [cur] is empty the current branch is
    asked for once more and its answer [cur2] is used in the same way. *)
Theorem mv_sole_argument_is_new_name :
  forall (os : OS) (args : list string) fl a (w : World os),
    flag.parseArgs [("name", ""); ("new-name", "")] args = flag.Done fl [a] ->
    flag.value fl "new-name" = ""%string ->
    forall cur t w1,
      currentBranch os w = (Ret cur, t, w1) ->
      let r := renameBranch os args w in
      (cur <> ""%string -> a <> ""%string ->
       (exists e, trace os r = t ++ executed ("git branch -m " ++ cur ++ " " ++ a) e)
       /\ shellCommands (trace os r) = [("git branch -m " ++ cur ++ " " ++ a)%string])
      /\ (cur <> ""%string -> a = ""%string -> shellCommands (trace os r) = [])
      /\ (cur = ""%string ->
          forall cur2 t2 w2,
            currentBranch os w1 = (Ret cur2, t2, w2) ->
            shellCommands (trace os r) =
            if ((cur2 =? "") || (a =? ""))%string then []
            else [("git branch -m " ++ cur2 ++ " " ++ a)%string]).
Proof.
  intros os args fl a w H Hnew cur t w1 Hcur r.
  assert (E : r =
    let r' := bind os (if (cur =? "")%string then currentBranch os else ret os cur)
      (fun oldName =>
         if ((oldName =? "") || (a =? ""))%string
         then bind os (print os ("Error: Both old and new branch names are required." ++ nl))
                (fun _ => emit os (Usage "mv"))
         else execute os ("git branch -m " ++ oldName ++ " " ++ a)) w1 in
    (outcome os r', t ++ trace os r', world os r')).
  { unfold r, renameBranch, Parse.
    cbn [flag.String flag.NewFlagSet flag.formal flag.name flag.args app].
    rewrite H, bind_ret. unfold flag.get, flag.NArg, flag.Arg.
    cbn [flag.formal flag.name flag.args List.length nth Nat.eqb].
    rewrite Hnew. cbn [String.eqb].
    unfold bind at 1. rewrite Hcur. reflexivity. }
  rewrite E. cbn zeta. cbn [trace fst snd].
  pose proof (currentBranch_quiet os w _ _ _ Hcur) as Ht.
  split; [|split].
  - intros Hc Ha. rewrite (proj2 (String.eqb_neq cur "") Hc), bind_ret.
    rewrite (proj2 (String.eqb_neq cur "") Hc), (proj2 (String.eqb_neq a "") Ha).
    cbn [orb]. rewrite execute_run. cbn [trace fst snd]. split.
    + eexists. reflexivity.
    + rewrite shellCommands_app, Ht, shellCommands_executed. reflexivity.
  - intros Hc Ha. rewrite (proj2 (String.eqb_neq cur "") Hc), bind_ret.
    rewrite (proj2 (String.eqb_eq a "") Ha), orb_true_r.
    rewrite shellCommands_app, Ht. reflexivity.
  - intros Hc cur2 t2 w2 H2. rewrite (proj2 (String.eqb_eq cur "") Hc).
    unfold bind at 1. rewrite H2. cbn [outcome trace world fst snd].
    pose proof (currentBranch_quiet os w1 _ _ _ H2) as Ht2.
    rewrite !shellCommands_app, Ht, Ht2.
    destruct ((cur2 =? "") || (a =? ""))%string; [reflexivity|].
    rewrite execute_run. cbn [trace fst snd]. apply shellCommands_executed.
Qed.

Lemma mv_sole_argument_witness :
  shellCommands (trace onFeature (renameBranch onFeature ["better-name"] []))
  = ["git branch -m feature better-name"].
Proof.
  refine (proj2 (proj1 (mv_sole_argument_is_new_name onFeature ["better-name"]
            [("name", ""); ("new-name", "")] "better-name" [] eq_refl eq_refl
            "feature" [Spawn showCurrent] [] eq_refl) _ _)); discriminate.
Defined.

(** *** cherry-log *)

Section CherryLog.

Variable os : OS.

(** One line of [git cherry] with at least two fields: the log of its second
    field is always asked for; what is printed depends on the first field
    and on the outcome of that child. *)
Lemma cherryLine_run line sign commitHash rest (w : World os) :
  strings.Fields line = sign :: commitHash :: rest ->
  cherryLine os line w =
  (Ret tt,
   Spawn (gitLog commitHash)
   :: match err (fst (spawn os (gitLog commitHash) w)) with
      | Some msg =>
          [Stdout ("Error fetching log for commit " ++ commitHash ++ ": " ++ msg ++ nl)]
      | None =>
          let logMessage := strings.TrimSpace (output (fst (spawn os (gitLog commitHash) w))) in
          if (sign =? "+")%string then [Stdout ("[!master] " ++ logMessage ++ nl)]
          else if (sign =? "-")%string
               then [Stdout (esc ++ "[90m[master] " ++ logMessage ++ esc ++ "[0m" ++ nl)]
               else []
      end,
   snd (spawn os (gitLog commitHash) w)).
Proof.
  intros H. unfold cherryLine. rewrite H.
  unfold bind, run, print, emit, ret, gitLog.
  cbn [outcome trace world fst snd app].
  destruct (err (fst (spawn os _ w))); [reflexivity|].
  cbn zeta. destruct (sign =? "+")%string; [reflexivity|].
  destruct (sign =? "-")%string; reflexivity.
Qed.

Lemma cherryLine_skip line (w : World os) :
  List.length (strings.Fields line) < 2 ->
  cherryLine os line w = (Ret tt, [], w).
Proof.
  unfold cherryLine. destruct (strings.Fields line) as [|a [|b l]]; cbn [List.length].
  - reflexivity.
  - reflexivity.
  - lia.
Qed.

Lemma cherryLine_returns line (w : World os) :
  outcome os (cherryLine os line w) = Ret tt.
Proof.
  destruct (strings.Fields line) as [|a [|b l]] eqn:E.
  - rewrite cherryLine_skip; [reflexivity | rewrite E; cbn; lia].
  - rewrite cherryLine_skip; [reflexivity | rewrite E; cbn; lia].
  - rewrite (cherryLine_run _ _ _ _ _ E). reflexivity.
Qed.

(** A loop whose body always returns runs its body on every element, in
    order: the events of a prefix come first, and the rest of the list starts
    in the world the prefix left. *)
Lemma forEach_app {A} (body : A -> M os unit) (l1 l2 : list A) (w : World os) :
  (forall x w', outcome os (body x w') = Ret tt) ->
  forEach os body (l1 ++ l2) w =
  (Ret tt,
   trace os (forEach os body l1 w)
   ++ trace os (forEach os body l2 (world os (forEach os body l1 w))),
   world os (forEach os body l2 (world os (forEach os body l1 w))))
  /\ outcome os (forEach os body l2 w) = Ret tt.
Proof.
  intros Hb.
  assert (Hret : forall l w', outcome os (forEach os body l w') = Ret tt).
  { induction l as [|x l IH]; intros w'; [reflexivity|].
    cbn [forEach]. unfold bind. rewrite Hb. cbn [outcome fst]. apply IH. }
  split; [|apply Hret].
  revert w. induction l1 as [|x l1 IH]; intros w.
  - cbn [app forEach ret trace world fst snd].
    rewrite <- (Hret l2 w) at 1. apply eq_sym, run_eta.
  - cbn [app forEach]. unfold bind. rewrite Hb.
    rewrite IH. cbn [outcome trace world fst snd].
    rewrite app_assoc. reflexivity.
Qed.

(** The same for one element in the middle of the list. *)
Lemma forEach_mid {A} (body : A -> M os unit) (l1 : list A) (x : A) (l2 : list A)
    (w : World os) :
  (forall y w', outcome os (body y w') = Ret tt) ->
  trace os (forEach os body (l1 ++ x :: l2) w) =
  trace os (forEach os body l1 w)
  ++ trace os (body x (world os (forEach os body l1 w)))
  ++ trace os (forEach os body l2 (world os (body x (world os (forEach os body l1 w))))).
Proof.
  intros Hb.
  rewrite (proj1 (forEach_app body l1 (x :: l2) w Hb)). cbn [trace fst snd].
  f_equal. cbn [forEach]. unfold bind. rewrite Hb. reflexivity.
Qed.

End CherryLog.

Lemma splitFrom_nonempty sep s skip cur : strings.splitFrom sep s skip cur <> [].
Proof.
  revert skip cur. induction s as [|c s IH]; intros skip cur; cbn [strings.splitFrom].
  - discriminate.
  - destruct skip; [|apply IH].
    destruct (prefix sep (String c s)); [discriminate | apply IH].
Qed.

(** Splitting on a non-empty separator never gives the empty list: the
    empty string itself splits into one empty piece. *)
Lemma Split_length s sep :
  sep <> ""%string -> 1 <= List.length (strings.Split s sep).
Proof.
  intros H. unfold strings.Split.
  destruct sep as [|c sep]; [congruence|]. cbn [strings.isEmpty].
  pose proof (splitFrom_nonempty (String c sep) s 0 "") as N.
  destruct (strings.splitFrom _ _ _ _); [congruence | cbn; lia].
Qed.

Lemma Split_lines_not_empty s :
  (List.length (strings.Split s nl) =? 0)%nat = false.
Proof.
  pose proof (Split_length s nl) as H.
  apply Nat.eqb_neq. assert (nl <> ""%string) by discriminate. specialize (H H0). lia.
Qed.

(** [cherryLog] once the repository check and [git cherry] succeeded: the
    heading, then the loop over the lines of the output. *)
Lemma cherryLog_run (os : OS) branch (w : World os) :
  branch <> ""%string ->
  err (fst (spawn os revParse w)) = None ->
  let w1 := snd (spawn os revParse w) in
  let cherry := fst (spawn os (gitCherry "master" branch) w1) in
  let w2 := snd (spawn os (gitCherry "master" branch) w1) in
  err cherry = None ->
  let r := forEach os (cherryLine os) (strings.Split (strings.TrimSpace (output cherry)) nl) w2 in
  cherryLog os branch w =
  (Ret tt,
   Spawn revParse
   :: Spawn (gitCherry "master" branch)
   :: Stdout ("Commits unique to '" ++ branch ++ "' compared to 'master':" ++ nl)
   :: trace os r,
   world os r).
Proof.
  intros Hb Hc w1 cherry w2 He r.
  unfold cherryLog.
  rewrite (bind_Ret os _ _ _ _ _ _ (checkGitRepo_ok os w Hc)).
  rewrite (proj2 (String.eqb_neq branch "") Hb).
  rewrite bind_run. fold (gitCherry "master" branch). fold w1. fold cherry w2. rewrite He.
  rewrite Split_lines_not_empty, bind_print.
  fold r. cbn [outcome trace world fst snd app].
  unfold r.
  rewrite (proj2 (forEach_app os (cherryLine os) [] _ w2 (cherryLine_returns os))).
  reflexivity.
Qed.

(** C1.  After its heading, [cherryLog] runs [cherryLine] on the lines of the
    [git cherry] output from first to last: the events of a prefix of the
    lines precede those of the remaining lines, which start in the world the
    prefix left.  Each line is cut into its white-space separated fields.  A
    line with fewer than two fields causes no event at all.  A line whose
    first field is [+] prints [[!master]] followed by the one-line log of
    its second field; a line whose first field is [-] prints the same log
    after [[master]], between the escape sequences for grey and reset.  The
    one-line log is the trimmed output of the [git log] child, which has to
    succeed for there to be one. *)
Theorem cherryLog_classifies_lines_in_order :
  forall (os : OS),
    (forall branch (w : World os),
        branch <> ""%string ->
        err (fst (spawn os revParse w)) = None ->
        let w1 := snd (spawn os revParse w) in
        let cherry := fst (spawn os (gitCherry "master" branch) w1) in
        let w2 := snd (spawn os (gitCherry "master" branch) w1) in
        err cherry = None ->
        trace os (cherryLog os branch w) =
        Spawn revParse
        :: Spawn (gitCherry "master" branch)
        :: Stdout ("Commits unique to '" ++ branch ++ "' compared to 'master':" ++ nl)
        :: trace os (forEach os (cherryLine os)
                       (strings.Split (strings.TrimSpace (output cherry)) nl) w2))
    /\ (forall l1 l2 (w : World os),
           trace os (forEach os (cherryLine os) (l1 ++ l2) w) =
           trace os (forEach os (cherryLine os) l1 w)
           ++ trace os (forEach os (cherryLine os) l2
                          (world os (forEach os (cherryLine os) l1 w))))
    /\ (forall line (w : World os),
           List.length (strings.Fields line) < 2 ->
           cherryLine os line w = (Ret tt, [], w))
    /\ (forall line commitHash rest out (w w' : World os),
           strings.Fields line = "+"%string :: commitHash :: rest ->
           spawn os (gitLog commitHash) w = (ok out, w') ->
           cherryLine os line w =
           (Ret tt,
            [Spawn (gitLog commitHash);
             Stdout ("[!master] " ++ strings.TrimSpace out ++ nl)],
            w'))
    /\ (forall line commitHash rest out (w w' : World os),
           strings.Fields line = "-"%string :: commitHash :: rest ->
           spawn os (gitLog commitHash) w = (ok out, w') ->
           cherryLine os line w =
           (Ret tt,
            [Spawn (gitLog commitHash);
             Stdout (esc ++ "[90m[master] " ++ strings.TrimSpace out ++ esc ++ "[0m" ++ nl)],
            w')).
Proof.
  intros os. split; [|split; [|split; [|split]]].
  - intros branch w Hb Hc w1 cherry w2 He.
    rewrite (cherryLog_run os branch w Hb Hc He). reflexivity.
  - intros l1 l2 w.
    rewrite (proj1 (forEach_app os (cherryLine os) l1 l2 w (cherryLine_returns os))).
    reflexivity.
  - apply cherryLine_skip.
  - intros line h rest out w w' HF HS.
    rewrite (cherryLine_run os _ _ _ _ w HF), HS. reflexivity.
  - intros line h rest out w w' HF HS.
    rewrite (cherryLine_run os _ _ _ _ w HF), HS. reflexivity.
Qed.

Lemma cherryLog_classifies_witness :
  cherryLine withCherry "+ abc123" [] =
  (Ret tt, [Spawn (gitLog "abc123"); Stdout ("[!master] abc123 Add parser" ++ nl)], [])
  /\ cherryLine withCherry "- def456" [] =
     (Ret tt,
      [Spawn (gitLog "def456");
       Stdout (esc ++ "[90m[master] def456 Fix typo" ++ esc ++ "[0m" ++ nl)], [])
  /\ cherryLine withCherry "garbage" [] = (Ret tt, [], [])
  /\ printed (trace withCherry (cherryLog withCherry "feature" [])) =
     [("Commits unique to 'feature' compared to 'master':" ++ nl)%string;
      ("[!master] abc123 Add parser" ++ nl)%string;
      (esc ++ "[90m[master] def456 Fix typo" ++ esc ++ "[0m" ++ nl)%string].
Proof.
  pose proof (cherryLog_classifies_lines_in_order withCherry) as (Hlog & _ & Hskip & Hplus & Hminus).
  split; [|split; [|split]].
  - exact (Hplus "+ abc123"%string "abc123"%string [] ("abc123 Add parser" ++ nl)%string
             [] [] eq_refl eq_refl).
  - exact (Hminus "- def456"%string "def456"%string [] ("def456 Fix typo" ++ nl)%string
             [] [] eq_refl eq_refl).
  - apply Hskip. vm_compute. lia.
  - rewrite (Hlog "feature"%string []); [reflexivity | discriminate | reflexivity | reflexivity].
Defined.

(** C10.  A line of the [git cherry] output with at least two fields whose
    first field is neither [+] nor [-] still has the one-line log of its
    second field asked for by [cherryLog], in its turn among the lines, and
    no entry is printed for it: between the events of the lines before it
    and those of the lines after it there is the [git log] child and nothing
    else, but for the report that the child itself failed.  The same holds
    of the body of the loop in any world. *)
Theorem cherryLog_other_sign_logs_without_entry :
  forall (os : OS) branch (w : World os) l1 line l2 sign commitHash rest,
    branch <> ""%string ->
    err (fst (spawn os revParse w)) = None ->
    let w1 := snd (spawn os revParse w) in
    let cherry := fst (spawn os (gitCherry "master" branch) w1) in
    let w2 := snd (spawn os (gitCherry "master" branch) w1) in
    err cherry = None ->
    strings.Split (strings.TrimSpace (output cherry)) nl = l1 ++ line :: l2 ->
    strings.Fields line = sign :: commitHash :: rest ->
    sign <> "+"%string ->
    sign <> "-"%string ->
    let before := forEach os (cherryLine os) l1 w2 in
    let log := spawn os (gitLog commitHash) (world os before) in
    trace os (cherryLog os branch w) =
    Spawn revParse
    :: Spawn (gitCherry "master" branch)
    :: Stdout ("Commits unique to '" ++ branch ++ "' compared to 'master':" ++ nl)
    :: trace os before
       ++ (Spawn (gitLog commitHash)
           :: match err (fst log) with
              | Some msg =>
                  [Stdout ("Error fetching log for commit " ++ commitHash ++ ": " ++ msg ++ nl)]
              | None => []
              end)
       ++ trace os (forEach os (cherryLine os) l2 (snd log))
    /\ In (gitLog commitHash) (spawned (trace os (cherryLog os branch w)))
    /\ (forall w' : World os,
           spawned (trace os (cherryLine os line w')) = [gitLog commitHash]
           /\ trace os (cherryLine os line w') =
              Spawn (gitLog commitHash)
              :: match err (fst (spawn os (gitLog commitHash) w')) with
                 | Some msg =>
                     [Stdout ("Error fetching log for commit " ++ commitHash ++ ": "
                              ++ msg ++ nl)]
                 | None => []
                 end
           /\ (err (fst (spawn os (gitLog commitHash) w')) = None ->
               printed (trace os (cherryLine os line w')) = [])).
Proof.
  intros os branch w l1 line l2 sign h rest Hb Hc w1 cherry w2 He HS HF Hp Hm before log.
  assert (HL : forall w' : World os,
             cherryLine os line w' =
             (Ret tt,
              Spawn (gitLog h)
              :: match err (fst (spawn os (gitLog h) w')) with
                 | Some msg =>
                     [Stdout ("Error fetching log for commit " ++ h ++ ": " ++ msg ++ nl)]
                 | None => []
                 end,
              snd (spawn os (gitLog h) w'))).
  { intros w'. rewrite (cherryLine_run os _ _ _ _ w' HF).
    rewrite (proj2 (String.eqb_neq sign "+") Hp), (proj2 (String.eqb_neq sign "-") Hm).
    destruct (err (fst (spawn os (gitLog h) w'))); reflexivity. }
  assert (E : trace os (cherryLog os branch w) =
              Spawn revParse
              :: Spawn (gitCherry "master" branch)
              :: Stdout ("Commits unique to '" ++ branch ++ "' compared to 'master':" ++ nl)
              :: trace os before
                 ++ (Spawn (gitLog h)
                     :: match err (fst log) with
                        | Some msg =>
                            [Stdout ("Error fetching log for commit " ++ h ++ ": "
                                     ++ msg ++ nl)]
                        | None => []
                        end)
                 ++ trace os (forEach os (cherryLine os) l2 (snd log))).
  { rewrite (cherryLog_run os branch w Hb Hc He). cbn [trace fst snd].
    fold w1. fold cherry. fold w2. rewrite HS.
    rewrite (forEach_mid os (cherryLine os) l1 line l2 w2 (cherryLine_returns os)).
    fold before. rewrite (HL (world os before)). reflexivity. }
  split; [exact E|]. split.
  - rewrite E. cbn [spawned]. right. right.
    assert (Happ : forall t1 t2, spawned (t1 ++ t2) = spawned t1 ++ spawned t2).
    { induction t1 as [|e t1 IH1]; intros t2; [reflexivity|].
      destruct e; cbn [app spawned]; rewrite ?IH1; reflexivity. }
    rewrite Happ. apply in_or_app. right. cbn [app spawned]. left. reflexivity.
  - intros w'. rewrite (HL w'). cbn [trace fst snd].
    destruct (err (fst (spawn os (gitLog h) w'))); repeat split; discriminate.
Qed.

Lemma cherryLog_other_sign_witness :
  trace withCherry (cherryLog withCherry "feature" []) =
  [Spawn revParse;
   Spawn (gitCherry "master" "feature");
   Stdout ("Commits unique to 'feature' compared to 'master':" ++ nl);
   Spawn (gitLog "abc123");
   Stdout ("[!master] abc123 Add parser" ++ nl);
   Spawn (gitLog "def456");
   Stdout (esc ++ "[90m[master] def456 Fix typo" ++ esc ++ "[0m" ++ nl);
   Spawn (gitLog "0a1b2c")].
Proof.
  refine (eq_trans
            (proj1 (cherryLog_other_sign_logs_without_entry withCherry "feature" []
                      ["+ abc123"; "- def456"; "garbage"]%string "* 0a1b2c" [] "*" "0a1b2c" []
                      _ eq_refl eq_refl eq_refl eq_refl _ _))
            eq_refl); discriminate.
Defined.

(** C3 on the code.  When [git cherry] succeeds and prints nothing,
    [cherryLog] prints its heading and nothing else: the empty output splits
    into one empty line, so the test for zero lines never holds and the
    message about no unique commits is not printed. *)
Theorem cherryLog_empty_output_prints_heading :
  forall (os : OS) branch (w : World os),
    branch <> ""%string ->
    err (fst (spawn os revParse w)) = None ->
    let w1 := snd (spawn os revParse w) in
    fst (spawn os (gitCherry "master" branch) w1) = ok "" ->
    trace os (cherryLog os branch w) =
    [Spawn revParse;
     Spawn (gitCherry "master" branch);
     Stdout ("Commits unique to '" ++ branch ++ "' compared to 'master':" ++ nl)]
    /\ ~ In (Stdout ("No unique commits found in branch '" ++ branch ++ "'." ++ nl))
            (trace os (cherryLog os branch w)).
Proof.
  intros os branch w Hb Hc w1 HS.
  assert (E : trace os (cherryLog os branch w) =
              [Spawn revParse;
               Spawn (gitCherry "master" branch);
               Stdout ("Commits unique to '" ++ branch ++ "' compared to 'master':" ++ nl)]).
  { rewrite (cherryLog_run os branch w Hb Hc); fold w1; rewrite HS; reflexivity. }
  split; [exact E|]. rewrite E.
  intros [H|[H|[H|[]]]]; discriminate.
Qed.

Lemma cherryLog_empty_output_witness :
  printed (trace quiet (cherryLog quiet "feature" [])) =
  [("Commits unique to 'feature' compared to 'master':" ++ nl)%string].
Proof.
  rewrite (proj1 (cherryLog_empty_output_prints_heading quiet "feature" []
                    ltac:(discriminate) eq_refl eq_refl)).
  reflexivity.
Defined.

(** *** recent *)

Section Recent.

Variable os : OS.

Lemma listing_run i branches (w : World os) :
  forRange os (fun i branch => print os ("[" ++ fmt.itoa (i + 1) ++ "] " ++ branch ++ nl))
    i branches w
  = (Ret tt, listing i branches, w).
Proof.
  revert i. induction branches as [|b bs IH]; intros i; [reflexivity|].
  cbn [forRange listing]. rewrite bind_print, IH. reflexivity.
Qed.

Lemma recent_run (w : World os) :
  err (fst (spawn os recentBranches w)) = None ->
  let w1 := snd (spawn os recentBranches w) in
  let branches :=
    strings.Split (strings.TrimSpace (output (fst (spawn os recentBranches w)))) nl in
  let choice := fst (scanln os w1) in
  let r := selectBranch os branches choice (snd (scanln os w1)) in
  recent os w =
  (outcome os r,
   Spawn recentBranches
   :: Stdout ("Recent branches:" ++ nl)
   :: listing 0 branches ++ [Stdout recentPrompt; Stdin choice] ++ trace os r,
   world os r).
Proof.
  intros He w1 branches choice r.
  assert (Hlen : (List.length branches =? 0)%nat = false) by apply Split_lines_not_empty.
  unfold recent. rewrite bind_run. fold recentBranches. rewrite He.
  fold branches. rewrite Hlen. fold w1.
  rewrite !bind_print.
  rewrite !(bind_Ret os _ _ _ _ _ _ (listing_run 0 branches _)).
  rewrite !bind_print. unfold bind at 1 2 3. unfold Scanln.
  cbn [outcome trace world fst snd app].
  reflexivity.
Qed.

Lemma index_in_range (l : list string) (i : Z) (w : World os) :
  (0 <= i < Z.of_nat (List.length l))%Z ->
  exists x, nth_error l (Z.to_nat i) = Some x /\ index os l i w = (Ret x, [], w).
Proof.
  intros H. unfold index.
  destruct (Z.ltb_spec i 0); [lia|].
  destruct (nth_error l (Z.to_nat i)) as [x|] eqn:E.
  - exists x. split; reflexivity.
  - apply nth_error_None in E. lia.
Qed.

(** The word read leads to at most one checkout, of a branch of the list;
    the index computed from it is checked against the list before it is
    used, so the lookup cannot fail. *)
Lemma selectBranch_run branches choice (w : World os) :
  (choice = ""%string /\
   selectBranch os branches choice w = (Ret tt, [Stdout ("No branch selected. Exiting." ++ nl)], w))
  \/ (choice <> ""%string /\
      (forall i, fmt.Sscanf_d choice = Some i -> (i < 1 \/ Z.of_nat (List.length branches) < i)%Z) /\
      selectBranch os branches choice w = (Ret tt, [Stdout ("Invalid selection. Exiting." ++ nl)], w))
  \/ (exists i b e w',
         choice <> ""%string /\
         fmt.Sscanf_d choice = Some i /\
         (1 <= i <= Z.of_nat (List.length branches))%Z /\
         nth_error branches (Z.to_nat (i - 1)) = Some b /\
         selectBranch os branches choice w = (Ret tt, executed ("git checkout " ++ b) e, w')).
Proof.
  unfold selectBranch.
  destruct (String.eqb_spec choice "") as [He|He]; [left; split; [exact He | reflexivity]|].
  right.
  destruct (fmt.Sscanf_d choice) as [i|] eqn:Hs.
  - destruct (Z.ltb_spec i 1) as [H1|H1]; cbn [orb].
    + left. split; [exact He|]. split; [|reflexivity]. intros j [= <-]. lia.
    + destruct (Z.gtb_spec i (Z.of_nat (List.length branches))) as [H2|H2].
      * left. split; [exact He|]. split; [|reflexivity]. intros j [= <-]. lia.
      * right.
        destruct (index_in_range branches (i - 1) w ltac:(lia)) as (b & Hb & Hi).
        exists i, b. do 2 eexists.
        split; [exact He|]. split; [reflexivity|]. split; [lia|]. split; [exact Hb|].
        rewrite (bind_Ret os _ _ _ _ _ _ Hi), execute_run. reflexivity.
  - left. split; [exact He|]. split; [discriminate | reflexivity].
Qed.

End Recent.

(** C5.  With five branches listed, the word [3] makes [recent] run exactly
    one more process, the checkout of the third branch of the list; the
    words [9] and [abc] end it with the invalid-selection message and an
    empty line ends it with the no-selection message, the listing child
    being the only process run.  Whatever the list and the word read,
    [recent] returns: the index it uses is inside the list. *)
Theorem recent_selection_checked_against_list :
  (forall (os : OS) (w : World os), outcome os (recent os w) = Ret tt)
  /\ (forall (os : OS) (w : World os) b1 b2 b3 b4 b5,
         err (fst (spawn os recentBranches w)) = None ->
         strings.Split (strings.TrimSpace (output (fst (spawn os recentBranches w)))) nl
         = [b1; b2; b3; b4; b5] ->
         let choice := fst (scanln os (snd (spawn os recentBranches w))) in
         let r := recent os w in
         (choice = "3"%string ->
          shellCommands (trace os r) = [("git checkout " ++ b3)%string]
          /\ spawned (trace os r) = [recentBranches; ["sh"; "-c"; ("git checkout " ++ b3)%string]])
         /\ (choice = "9"%string \/ choice = "abc"%string ->
             spawned (trace os r) = [recentBranches]
             /\ exists t, trace os r = t ++ [Stdout ("Invalid selection. Exiting." ++ nl)])
         /\ (choice = ""%string ->
             spawned (trace os r) = [recentBranches]
             /\ exists t, trace os r = t ++ [Stdout ("No branch selected. Exiting." ++ nl)])).
Proof.
  split.
  - intros os w.
    destruct (err (fst (spawn os recentBranches w))) as [msg|] eqn:He.
    + unfold recent. rewrite bind_run. fold recentBranches. rewrite He. reflexivity.
    + rewrite (recent_run os w He). cbn [outcome fst].
      destruct (selectBranch_run os
                  (strings.Split (strings.TrimSpace (output (fst (spawn os recentBranches w)))) nl)
                  (fst (scanln os (snd (spawn os recentBranches w))))
                  (snd (scanln os (snd (spawn os recentBranches w)))))
        as [[_ E]|[(_ & _ & E)|(i & b & e & w' & _ & _ & _ & _ & E)]];
        rewrite E; reflexivity.
  - intros os w b1 b2 b3 b4 b5 He Hb choice r.
    unfold r. rewrite (recent_run os w He). rewrite Hb. fold choice.
    cbn [trace fst snd listing app].
    assert (Hsp : forall t,
      spawned (Spawn recentBranches
               :: Stdout ("Recent branches:" ++ nl)
               :: Stdout ("[" ++ fmt.itoa (0 + 1) ++ "] " ++ b1 ++ nl)
               :: Stdout ("[" ++ fmt.itoa (0 + 1 + 1) ++ "] " ++ b2 ++ nl)
               :: Stdout ("[" ++ fmt.itoa (0 + 1 + 1 + 1) ++ "] " ++ b3 ++ nl)
               :: Stdout ("[" ++ fmt.itoa (0 + 1 + 1 + 1 + 1) ++ "] " ++ b4 ++ nl)
               :: Stdout ("[" ++ fmt.itoa (0 + 1 + 1 + 1 + 1 + 1) ++ "] " ++ b5 ++ nl)
               :: Stdout recentPrompt :: Stdin choice :: t)
      = recentBranches :: spawned t) by reflexivity.
    split; [|split].
    + intros Hc.
      destruct (selectBranch_run os [b1; b2; b3; b4; b5] choice
                  (snd (scanln os (snd (spawn os recentBranches w)))))
        as [[Hn _]|[(_ & Hinv & _)|(i & b & e & w' & _ & Hs & _ & Hb3 & E)]].
      * rewrite Hc in Hn. discriminate.
      * rewrite Hc in Hinv. specialize (Hinv 3%Z eq_refl). cbn in Hinv. lia.
      * rewrite Hc in Hs. injection Hs as <-. injection Hb3 as <-.
        rewrite E. cbn [trace fst snd].
        rewrite Hsp. split; destruct e; reflexivity.
    + intros Hc.
      assert (E : selectBranch os [b1; b2; b3; b4; b5] choice (snd (scanln os (snd (spawn os recentBranches w))))
                  = (Ret tt, [Stdout ("Invalid selection. Exiting." ++ nl)],
                     snd (scanln os (snd (spawn os recentBranches w))))).
      { destruct Hc as [-> | ->]; reflexivity. }
      rewrite E. cbn [trace fst snd]. split; [reflexivity|].
      eexists (_ :: _ :: _ :: _ :: _ :: _ :: _ :: _ :: [_]). reflexivity.
    + intros Hc.
      assert (E : selectBranch os [b1; b2; b3; b4; b5] choice (snd (scanln os (snd (spawn os recentBranches w))))
                  = (Ret tt, [Stdout ("No branch selected. Exiting." ++ nl)],
                     snd (scanln os (snd (spawn os recentBranches w))))).
      { rewrite Hc. reflexivity. }
      rewrite E. cbn [trace fst snd]. split; [reflexivity|].
      eexists (_ :: _ :: _ :: _ :: _ :: _ :: _ :: _ :: [_]). reflexivity.
Qed.

Lemma recent_selection_witness :
  (shellCommands (trace fiveBranches (recent fiveBranches ["3"])) = ["git checkout feature"]
   /\ spawned (trace fiveBranches (recent fiveBranches ["3"]))
      = [recentBranches; ["sh"; "-c"; "git checkout feature"]])
  /\ spawned (trace fiveBranches (recent fiveBranches ["9"])) = [recentBranches]
  /\ spawned (trace fiveBranches (recent fiveBranches ["abc"])) = [recentBranches]
  /\ spawned (trace fiveBranches (recent fiveBranches [])) = [recentBranches].
Proof.
  pose proof (proj2 recent_selection_checked_against_list fiveBranches) as H.
  split; [|split; [|split]].
  - exact (proj1 (H ["3"%string] "main" "dev" "feature" "hotfix" "old"
                    eq_refl eq_refl)%string eq_refl).
  - exact (proj1 (proj1 (proj2 (H ["9"%string] "main" "dev" "feature" "hotfix" "old"
                    eq_refl eq_refl)%string) (or_introl eq_refl))).
  - exact (proj1 (proj1 (proj2 (H ["abc"%string] "main" "dev" "feature" "hotfix" "old"
                    eq_refl eq_refl)%string) (or_intror eq_refl))).
  - exact (proj1 (proj2 (proj2 (H [] "main" "dev" "feature" "hotfix" "old"
                    eq_refl eq_refl)%string) eq_refl)).
Defined.

Lemma listing_not_message i branches :
  ~ In (Stdout ("No recent branches found." ++ nl)) (listing i branches).
Proof.
  revert i. induction branches as [|b bs IH]; intros i; cbn [listing In].
  - tauto.
  - intros [H|H]; [discriminate | exact (IH _ H)].
Qed.

Lemma executed_not_message command e :
  ~ In (Stdout ("No recent branches found." ++ nl)) (executed command e).
Proof.
  unfold executed. destruct e; cbn [In]; intros H;
    repeat (destruct H as [H|H]; [discriminate|]); exact H.
Qed.

(** C9.  Whatever the branch-listing child printed, the empty string
    included, the list [recent] obtains by splitting the trimmed output on
    line feeds has at least one element: the test for a list of length zero
    never holds, the first numbered entry is always printed and the message
    about no recent branches is never printed. *)
Theorem recent_always_lists_an_entry :
  forall (os : OS) (w : World os),
    err (fst (spawn os recentBranches w)) = None ->
    let branches :=
      strings.Split (strings.TrimSpace (output (fst (spawn os recentBranches w)))) nl in
    (List.length branches =? 0)%nat = false
    /\ (exists b bs t,
           branches = b :: bs
           /\ trace os (recent os w) =
              Spawn recentBranches
              :: Stdout ("Recent branches:" ++ nl)
              :: Stdout ("[1] " ++ b ++ nl)
              :: t)
    /\ ~ In (Stdout ("No recent branches found." ++ nl)) (trace os (recent os w)).
Proof.
  intros os w He branches.
  assert (Hlen : (List.length branches =? 0)%nat = false) by apply Split_lines_not_empty.
  split; [exact Hlen|].
  rewrite (recent_run os w He). fold branches. cbn [trace fst snd].
  split.
  - destruct branches as [|b bs]; [discriminate|].
    exists b, bs. eexists. split; reflexivity.
  - set (choice := fst (scanln os (snd (spawn os recentBranches w)))).
    set (w2 := snd (scanln os (snd (spawn os recentBranches w)))).
    intros [H|[H|H]]; [discriminate | discriminate |].
    apply in_app_or in H. destruct H as [H|H]; [exact (listing_not_message _ _ H)|].
    destruct H as [H|[H|H]]; [discriminate | discriminate |].
    destruct (selectBranch_run os branches choice w2)
      as [[_ E]|[(_ & _ & E)|(i & b & e & w' & _ & _ & _ & _ & E)]];
      rewrite E in H; cbn [trace fst snd] in H.
    + destruct H as [H|[]]. discriminate.
    + destruct H as [H|[]]. discriminate.
    + exact (executed_not_message _ _ H).
Qed.

(** The empty output of the listing child still gives one, empty, entry. *)
Lemma recent_always_lists_witness :
  trace quiet (recent quiet []) =
  [Spawn recentBranches;
   Stdout ("Recent branches:" ++ nl);
   Stdout ("[1] " ++ nl);
   Stdout recentPrompt;
   Stdin "";
   Stdout ("No branch selected. Exiting." ++ nl)]
  /\ ~ In (Stdout ("No recent branches found." ++ nl)) (trace quiet (recent quiet [])).
Proof.
  split; [reflexivity|].
  exact (proj2 (proj2 (recent_always_lists_an_entry quiet [] eq_refl))).
Defined.

(** *** main *)




(** *** cleanup *)

Lemma digit_not_letter c :
  fmt.isDigit c = true -> c <> "m"%char /\ c <> "y"%char.
Proof. intros H. split; intros ->; vm_compute in H; discriminate. Qed.

Lemma Contains_number age :
  allDigits age = true ->
  strings.Contains age "month" = false /\ strings.Contains age "year" = false.
Proof.
  induction age as [|c age IH]; intros H; [split; reflexivity|].
  cbn [allDigits] in H. apply andb_true_iff in H. destruct H as [Hc Ha].
  destruct (IH Ha) as [IHm IHy]. destruct (digit_not_letter c Hc) as [Nm Ny].
  cbn [strings.Contains prefix]. rewrite IHm, IHy.
  destruct (ascii_dec "m" c) as [E|_]; [congruence|].
  destruct (ascii_dec "y" c) as [E|_]; [congruence|].
  split; reflexivity.
Qed.

(** [cleanup] looks for the words month and year in the second field of a
    line only.  [git branch] prints the age after the name as a number
    followed by a unit, so that field is the number: such a line is passed
    over without any prompt, whatever the unit that follows. *)
Lemma cleanup_numeric_age_not_prompted (os : OS) line branch age rest (w : World os) :
  strings.Fields line = branch :: age :: rest ->
  allDigits age = true ->
  cleanupBranch os line w = (Ret tt, [], w).
Proof.
  intros HF HA. unfold cleanupBranch. rewrite HF.
  destruct (Contains_number age HA) as [-> ->]. reflexivity.
Qed.

(** C2 on the code.  On a branch list with a branch three months old and one
    two years old, with [y] ready to be typed twice, [cleanup] lists the
    branches and does nothing more: no prompt is printed, nothing is read
    from the terminal and no branch is deleted. *)
Theorem cleanup_stale_branches_not_prompted :
  cleanup staleBranches ["y"; "y"] = (Ret tt, [Spawn branchAges], ["y"; "y"])
  /\ strings.Fields "old-feature 3 months ago" = ["old-feature"; "3"; "months"; "ago"]
  /\ cleanupBranch staleBranches "old-feature 3 months ago" ["y"; "y"] = (Ret tt, [], ["y"; "y"]).
Proof. repeat split. Qed.

(** ** Runs on concrete inputs *)

Example TrimSpace_example : strings.TrimSpace ("  a b " ++ nl) = "a b"%string.
Proof. reflexivity. Qed.

Example Split_examples :
  strings.Split ("a" ++ nl ++ nl ++ "b") nl = ["a"; ""; "b"]%string
  /\ strings.Split "" nl = [""%string]
  /\ strings.Split "a, b,c, " ", " = ["a"; "b,c"; ""]%string.
Proof. repeat split. Qed.

Example Fields_examples :
  strings.Fields (" + abc  d" ++ tab) = ["+"; "abc"; "d"]%string
  /\ strings.Fields "" = []
  /\ strings.Fields "garbage" = ["garbage"%string].
Proof. repeat split. Qed.

(** White space beyond ASCII separates fields and is trimmed; a byte that
    only looks like the end of such a rune is kept. *)
Example Unicode_space_examples :
  strings.Fields ("a" ++ nbsp ++ "b" ++ lineSeparator ++ " c") = ["a"; "b"; "c"]%string
  /\ strings.TrimSpace (nbsp ++ " x y" ++ lineSeparator ++ nl) = "x y"%string
  /\ strings.Fields ("a" ++ String (ascii_of_nat 160) "b") = ["a" ++ String (ascii_of_nat 160) "b"]%string
  /\ strings.TrimSpace ("x" ++ String (ascii_of_nat 160) " ") = ("x" ++ String (ascii_of_nat 160) "")%string
  /\ fmt.Sscanf_d (nbsp ++ " 3") = Some 3%Z.
Proof. repeat split. Qed.

(** In a bare repository the check passes: only the end of its child is
    looked at, not what the child printed. *)
Example main_in_bare_repository :
  main bare ["brk"] [] = (Ret tt, [Spawn revParse; Stdout (helpText ++ nl)], []).
Proof. reflexivity. Qed.

Example Contains_example :
  strings.Contains "3 months" "month" = true /\ strings.Contains "3" "month" = false.
Proof. split; reflexivity. Qed.

Example ToLower_example : strings.ToLower "Yz" = "yz"%string.
Proof. reflexivity. Qed.

Example Sscanf_examples :
  map fmt.Sscanf_d ["3"; "9"; ""; "abc"; "-12x"; " +7"; "9223372036854775808"; "-"]%string
  = [Some 3%Z; Some 9%Z; None; None; Some (-12)%Z; Some 7%Z; None; None].
Proof. reflexivity. Qed.

Example parseArgs_examples :
  flag.parseArgs [("branch", "master"); ("remote", "origin")]
                 ["--remote=up"; "-branch"; "-x"; "rest"; "-remote"]
  = flag.Done [("branch", "-x"); ("remote", "up")] ["rest"; "-remote"]
  /\ flag.parseArgs [("branch", "master")] ["-h"] = flag.ErrHelp
  /\ flag.parseArgs [("branch", "master")] ["-branch"]
     = flag.Failed "flag needs an argument: -branch"
  /\ flag.parseArgs [("branch", "master")] ["--"; "-branch"]
     = flag.Done [("branch", "master")] ["-branch"].
Proof. repeat split. Qed.

(** A flag that is not declared ends the process with status 2 before any
    command is run. *)
Example update_unknown_flag :
  update quiet ["-force"] [] =
  (Exit 2, [Stderr ("flag provided but not defined: -force" ++ nl); Usage "update"], []).
Proof. reflexivity. Qed.

(** The prompt of [cleanup] is reached when the second field itself holds
    the unit, and [y] then deletes the branch. *)
Example cleanup_prompt_on_second_field :
  cleanupBranch quiet "topic 5months" ["y"] =
  (Ret tt,
   Stdout "Branch: topic, Age: 5months. Delete? [y/N] "
   :: Stdin "y"
   :: executed "git branch -d topic" None,
   []).
Proof. reflexivity. Qed.

(** [cherryLog] reports a failed [git log] and goes on with the next line. *)
Example cherryLog_log_failure :
  printed (trace (scripted (answer [(gitCherry "master" "feature",
                                     ok ("+ abc123" ++ nl ++ "+ def456"));
                                    (gitLog "abc123", failed "exit status 128");
                                    (gitLog "def456", ok "def456 Fix typo")]))
             (cherryLog (scripted (answer [(gitCherry "master" "feature",
                                            ok ("+ abc123" ++ nl ++ "+ def456"));
                                           (gitLog "abc123", failed "exit status 128");
                                           (gitLog "def456", ok "def456 Fix typo")]))
                "feature" []))
  = [("Commits unique to 'feature' compared to 'master':" ++ nl)%string;
     ("Error fetching log for commit abc123: exit status 128" ++ nl)%string;
     ("[!master] def456 Fix typo" ++ nl)%string].
Proof. reflexivity. Qed.

(** [mv] outside any branch: the current branch is asked for twice and no
    rename is issued. *)
Example mv_detached_head :
  renameBranch quiet ["better-name"] [] =
  (Ret tt,
   [Spawn showCurrent; Spawn showCurrent;
    Stdout ("Error: Both old and new branch names are required." ++ nl);
    Usage "mv"],
   []).
Proof. reflexivity. Qed.

(** ** Further properties of the handlers *)

Section Handlers.

Variable os : OS.

Lemma Parse_done n fl0 a0 arguments fl rest (w : World os) :
  flag.parseArgs fl0 arguments = flag.Done fl rest ->
  Parse os {| flag.name := n; flag.formal := fl0; flag.args := a0 |} arguments w =
  (Ret {| flag.name := n; flag.formal := fl; flag.args := rest |}, [], w).
Proof. intros H. unfold Parse. cbn [flag.formal flag.name]. rewrite H. reflexivity. Qed.

Lemma Parse_stop n fl0 a0 arguments stop (k : flag.FlagSet -> M os unit) (w : World os) :
  flagStop n (flag.parseArgs fl0 arguments) = Some stop ->
  bind os (Parse os {| flag.name := n; flag.formal := fl0; flag.args := a0 |} arguments) k w
  = (fst stop, snd stop, w)
  /\ spawned (snd stop) = []
  /\ (fst stop = Exit 2 \/ fst stop = Exit 0).
Proof.
  unfold Parse. cbn [flag.formal flag.name].
  destruct (flag.parseArgs fl0 arguments); cbn [flagStop].
  - discriminate.
  - intros [= <-]. repeat split. left. reflexivity.
  - intros [= <-]. repeat split. right. reflexivity.
Qed.

Lemma ToLower_y s :
  (strings.ToLower s =? "y")%string = ((s =? "y") || (s =? "Y"))%string.
Proof.
  destruct s as [|c [|c' s']]; [reflexivity| |].
  - destruct c as [[] [] [] [] [] [] [] []]; reflexivity.
  - cbn [strings.ToLower String.eqb orb].
    repeat match goal with |- context [if ?b then false else false] => destruct b end;
      reflexivity.
Qed.

Lemma ToLower_n s :
  (strings.ToLower s =? "n")%string = ((s =? "n") || (s =? "N"))%string.
Proof.
  destruct s as [|c [|c' s']]; [reflexivity| |].
  - destruct c as [[] [] [] [] [] [] [] []]; reflexivity.
  - cbn [strings.ToLower String.eqb orb].
    repeat match goal with |- context [if ?b then false else false] => destruct b end;
      reflexivity.
Qed.

Lemma bind_Scanln {B} (f : string -> M os B) (w : World os) :
  bind os (Scanln os) f w =
  (outcome os (f (fst (scanln os w)) (snd (scanln os w))),
   Stdin (fst (scanln os w)) :: trace os (f (fst (scanln os w)) (snd (scanln os w))),
   world os (f (fst (scanln os w)) (snd (scanln os w)))).
Proof. reflexivity. Qed.

Lemma execute_returns command (w : World os) :
  outcome os (execute os command w) = Ret tt.
Proof. rewrite execute_run. reflexivity. Qed.

Lemma currentBranch_eq (w : World os) :
  currentBranch os w =
  (Ret match err (fst (spawn os showCurrent w)) with
       | Some _ => ""%string
       | None => strings.TrimSpace (output (fst (spawn os showCurrent w)))
       end,
   Spawn showCurrent
   :: match err (fst (spawn os showCurrent w)) with
      | Some msg => [Stdout ("Error getting current branch: " ++ msg ++ nl)]
      | None => []
      end,
   snd (spawn os showCurrent w)).
Proof.
  unfold currentBranch. rewrite bind_run. fold showCurrent.
  destruct (err (fst (spawn os showCurrent w))); reflexivity.
Qed.

End Handlers.

(** X1.  [execute] never stops the program: whatever the child returns, the
    command is announced, one child is started, its failure is only printed,
    and the rest of the handler runs in the world the child left. *)
Theorem execute_failure_is_reported_not_propagated :
  forall (os : OS) (B : Type) command (k : unit -> M os B) (w : World os),
    let p := fst (spawn os ["sh"; "-c"; command] w) in
    let w' := snd (spawn os ["sh"; "-c"; command] w) in
    bind os (execute os command) k w =
    (outcome os (k tt w'),
     Stdout ("Executing: " ++ command ++ nl)
     :: Forward ["sh"; "-c"; command]
     :: match err p with
        | Some msg => [Stdout ("Error executing command: " ++ msg ++ nl)]
        | None => []
        end
     ++ trace os (k tt w'),
     world os (k tt w'))
    /\ outcome os (execute os command w) = Ret tt
    /\ spawned (trace os (execute os command w)) = [["sh"; "-c"; command]].
Proof.
  intros os B command k w p w'. split; [|split].
  - rewrite bind_execute. reflexivity.
  - apply execute_returns.
  - rewrite execute_run. cbn [trace fst snd]. destruct (err _); reflexivity.
Qed.

(** X2.  [push] hands exactly one command line to the shell.  With a branch
    from the flags no other process is run; without one the current branch
    is asked for first and whatever name comes back is pushed, the empty
    name included when the query failed. *)
Theorem push_resolves_branch_then_pushes :
  forall (os : OS) args fl rest (w : World os),
    flag.parseArgs [("branch", ""); ("remote", "origin")] args = flag.Done fl rest ->
    let b := flag.value fl "branch" in
    let r := flag.value fl "remote" in
    outcome os (push os args w) = Ret tt
    /\ (b <> ""%string ->
        spawned (trace os (push os args w)) = [["sh"; "-c"; ("git push " ++ r ++ " " ++ b)%string]])
    /\ (b = ""%string ->
        spawned (trace os (push os args w)) =
        [showCurrent;
         ["sh"; "-c";
          ("git push " ++ r ++ " " ++ branchReported (fst (spawn os showCurrent w)))%string]]).
Proof.
  intros os args fl rest w H b r.
  unfold push.
  unfold flag.String, flag.NewFlagSet. cbn [flag.formal flag.name flag.args app].
  rewrite (bind_Ret os _ _ _ _ _ _ (Parse_done os _ _ _ _ _ _ w H)).
  unfold flag.get. cbn [flag.formal app]. fold b r.
  destruct (String.eqb_spec b "") as [Hb|Hb].
  - rewrite (bind_Ret os _ _ _ _ _ _ (currentBranch_eq os w)), execute_run.
    cbn [outcome trace world fst snd app].
    split; [reflexivity|]. split; [congruence|]. intros _.
    unfold branchReported.
    destruct (err (fst (spawn os showCurrent w))); destruct (err _); reflexivity.
  - rewrite bind_ret, execute_run. cbn [outcome trace world fst snd app].
    split; [reflexivity|]. split; [|congruence]. intros _.
    destruct (err _); reflexivity.
Qed.

Lemma push_resolves_branch_witness :
  spawned (trace onFeature (push onFeature ["-remote"; "upstream"] []))
  = [showCurrent; ["sh"; "-c"; "git push upstream feature"]]
  /\ spawned (trace noCurrentBranch (push noCurrentBranch [] []))
     = [showCurrent; ["sh"; "-c"; "git push origin "]]
  /\ spawned (trace onFeature (push onFeature ["-branch"; "main"] []))
     = [["sh"; "-c"; "git push origin main"]].
Proof.
  split; [|split].
  - exact (proj2 (proj2 (push_resolves_branch_then_pushes onFeature ["-remote"; "upstream"]%string
             [("branch", ""); ("remote", "upstream")]%string [] [] eq_refl)) eq_refl).
  - exact (proj2 (proj2 (push_resolves_branch_then_pushes noCurrentBranch []
             [("branch", ""); ("remote", "origin")]%string [] [] eq_refl)) eq_refl).
  - refine (proj1 (proj2 (push_resolves_branch_then_pushes onFeature ["-branch"; "main"]%string
             [("branch", "main"); ("remote", "origin")]%string [] [] eq_refl)) _).
    discriminate.
Defined.

(** X3.  [refresh] and [rehydrate] each hand exactly one command line to the
    shell, the merge of, respectively the rebase onto, the branch of their
    flag (master by default), and return whether or not it succeeded. *)
Theorem refresh_and_rehydrate_one_command :
  forall (os : OS) args fl rest (w : World os),
    flag.parseArgs [("branch", "master")] args = flag.Done fl rest ->
    let b := flag.value fl "branch" in
    (outcome os (refresh os args w) = Ret tt
     /\ spawned (trace os (refresh os args w)) = [["sh"; "-c"; ("git merge " ++ b)%string]])
    /\ (outcome os (rehydrate os args w) = Ret tt
        /\ spawned (trace os (rehydrate os args w)) = [["sh"; "-c"; ("git rebase " ++ b)%string]])
    /\ (args = [] -> b = "master"%string).
Proof.
  intros os args fl rest w H b.
  unfold refresh, rehydrate.
  unfold flag.String, flag.NewFlagSet. cbn [flag.formal flag.name flag.args app].
  rewrite !(bind_Ret os _ _ _ _ _ _ (Parse_done os _ _ _ _ _ _ w H)).
  unfold flag.get. cbn [flag.formal app]. fold b.
  rewrite !execute_run. cbn [outcome trace world fst snd].
  split; [|split].
  - split; [reflexivity | destruct (err _); reflexivity].
  - split; [reflexivity | destruct (err _); reflexivity].
  - intros ->. cbn in H. injection H as <- _. reflexivity.
Qed.

Lemma refresh_and_rehydrate_witness :
  spawned (trace allFail (refresh allFail ["--branch=develop"] []))
  = [["sh"; "-c"; "git merge develop"]]
  /\ spawned (trace allFail (rehydrate allFail [] [])) = [["sh"; "-c"; "git rebase master"]].
Proof.
  split.
  - exact (proj2 (proj1 (refresh_and_rehydrate_one_command allFail ["--branch=develop"]%string
             [("branch", "develop")]%string [] [] eq_refl))).
  - exact (proj2 (proj1 (proj2 (refresh_and_rehydrate_one_command allFail []
             [("branch", "master")]%string [] [] eq_refl)))).
Defined.

(** X4.  [shove] always runs both of its commands, staging then amending:
    the amend is attempted with whatever the staging child returned. *)
Theorem shove_stages_then_amends :
  forall (os : OS) (w : World os),
    exists e1 e2,
      trace os (shove os w) =
      executed "git add -p" e1 ++ executed "git commit --amend --no-edit" e2
      /\ outcome os (shove os w) = Ret tt
      /\ e1 = err (fst (spawn os ["sh"; "-c"; "git add -p"%string] w)).
Proof.
  intros os w. unfold shove. rewrite bind_execute, execute_run.
  cbn [outcome trace world fst snd]. do 2 eexists.
  split; [reflexivity|]. split; reflexivity.
Qed.

(** X5.  Arguments the flag package rejects stop every handler that takes
    flags before it starts any process: the handler ends with the flag
    package's exit status (2 for a bad flag, after the message and the usage;
    0 for -h and -help, after the usage) and with nothing else done. *)
Theorem rejected_flags_stop_the_handler :
  forall (os : OS) args stop (w : World os),
    (flagStop "update" (flag.parseArgs [("branch", "master"); ("remote", "origin")] args)
     = Some stop -> update os args w = (fst stop, snd stop, w))
    /\ (flagStop "refresh" (flag.parseArgs [("branch", "master")] args) = Some stop ->
        refresh os args w = (fst stop, snd stop, w))
    /\ (flagStop "rehydrate" (flag.parseArgs [("branch", "master")] args) = Some stop ->
        rehydrate os args w = (fst stop, snd stop, w))
    /\ (flagStop "split" (flag.parseArgs [("name", "")] args) = Some stop ->
        split os args w = (fst stop, snd stop, w))
    /\ (flagStop "push" (flag.parseArgs [("branch", ""); ("remote", "origin")] args)
        = Some stop -> push os args w = (fst stop, snd stop, w))
    /\ (flagStop "mv" (flag.parseArgs [("name", ""); ("new-name", "")] args) = Some stop ->
        renameBranch os args w = (fst stop, snd stop, w))
    /\ (forall n p, flagStop n p = Some stop ->
                    spawned (snd stop) = [] /\ (fst stop = Exit 2 \/ fst stop = Exit 0)).
Proof.
  intros os args stop w.
  repeat split;
    try (intros H;
         match goal with
         | |- ?h os args w = _ => unfold h
         end;
         unfold flag.String, flag.NewFlagSet;
         cbn [flag.formal flag.name flag.args app];
         exact (proj1 (Parse_stop os _ _ _ _ _ _ w H))).
  - destruct p; cbn [flagStop] in H; [discriminate| |]; injection H as <-; reflexivity.
  - destruct p; cbn [flagStop] in H; [discriminate| |]; injection H as <-;
      [left | right]; reflexivity.
Qed.

Lemma rejected_flags_witness :
  split allFail ["-branch"; "topic"] [] =
  (Exit 2, [Stderr ("flag provided but not defined: -branch" ++ nl); Usage "split"], [])
  /\ renameBranch allFail ["-h"] [] = (Exit 0, [Usage "mv"], []).
Proof.
  split.
  - exact (proj1 (proj2 (proj2 (proj2 (rejected_flags_stop_the_handler allFail
             ["-branch"; "topic"]%string
             (Exit 2, [Stderr ("flag provided but not defined: -branch" ++ nl); Usage "split"])
             [])))) eq_refl).
  - exact (proj1 (proj2 (proj2 (proj2 (proj2 (proj2 (rejected_flags_stop_the_handler allFail
             ["-h"]%string (Exit 0, [Usage "mv"]) [])))))) eq_refl).
Defined.

(** X6.  [mv] without a new name from the flags and with no positional
    argument, or with more than one, reports that the new name is required,
    prints the usage and stops there: no process is run, the current branch
    is not even asked for. *)
Theorem mv_without_new_name_runs_nothing :
  forall (os : OS) args fl rest (w : World os),
    flag.parseArgs [("name", ""); ("new-name", "")] args = flag.Done fl rest ->
    flag.value fl "new-name" = ""%string ->
    List.length rest <> 1 ->
    renameBranch os args w =
    (Ret tt, [Stdout ("Error: New branch name is required." ++ nl); Usage "mv"], w).
Proof.
  intros os args fl rest w H Hnew Hlen.
  unfold renameBranch.
  unfold flag.String, flag.NewFlagSet. cbn [flag.formal flag.name flag.args app].
  rewrite (bind_Ret os _ _ _ _ _ _ (Parse_done os _ _ _ _ _ _ w H)).
  unfold flag.get, flag.NArg. cbn [flag.formal flag.name flag.args app].
  rewrite Hnew. cbn [String.eqb].
  rewrite (proj2 (Nat.eqb_neq _ _) Hlen). reflexivity.
Qed.

Lemma mv_without_new_name_witness :
  renameBranch onFeature ["-name"; "old"; "a"; "b"] [] =
  (Ret tt, [Stdout ("Error: New branch name is required." ++ nl); Usage "mv"], []).
Proof.
  refine (mv_without_new_name_runs_nothing onFeature ["-name"; "old"; "a"; "b"]%string
            [("name", "old"); ("new-name", "")]%string ["a"; "b"]%string [] eq_refl eq_refl _).
  discriminate.
Defined.

(** X7.  [mv] with a new name from the flags ignores the positional
    arguments.  With an old name from the flags too, the rename of that
    branch is the only process run.  Without one, the current branch is asked
    for: its name is the old name, and when it comes back empty the error
    about both names is printed and nothing is renamed. *)
Theorem mv_with_new_name_flag :
  forall (os : OS) args fl rest (w : World os),
    flag.parseArgs [("name", ""); ("new-name", "")] args = flag.Done fl rest ->
    let old := flag.value fl "name" in
    let new := flag.value fl "new-name" in
    let cur := branchReported (fst (spawn os showCurrent w)) in
    new <> ""%string ->
    (old <> ""%string ->
     spawned (trace os (renameBranch os args w))
     = [["sh"; "-c"; ("git branch -m " ++ old ++ " " ++ new)%string]])
    /\ (old = ""%string -> cur <> ""%string ->
        spawned (trace os (renameBranch os args w))
        = [showCurrent; ["sh"; "-c"; ("git branch -m " ++ cur ++ " " ++ new)%string]])
    /\ (old = ""%string -> cur = ""%string ->
        spawned (trace os (renameBranch os args w)) = [showCurrent]
        /\ exists t, trace os (renameBranch os args w) =
                     t ++ [Stdout ("Error: Both old and new branch names are required." ++ nl);
                           Usage "mv"]).
Proof.
  intros os args fl rest w H old new cur Hnew.
  unfold renameBranch.
  unfold flag.String, flag.NewFlagSet. cbn [flag.formal flag.name flag.args app].
  rewrite (bind_Ret os _ _ _ _ _ _ (Parse_done os _ _ _ _ _ _ w H)).
  unfold flag.get. cbn [flag.formal flag.name flag.args app]. fold old new.
  rewrite (proj2 (String.eqb_neq new "") Hnew).
  split; [|split].
  - intros Hold. rewrite (proj2 (String.eqb_neq old "") Hold), bind_ret.
    rewrite (proj2 (String.eqb_neq old "") Hold).
    cbn [orb]. rewrite execute_run. cbn [trace fst snd]. destruct (err _); reflexivity.
  - intros Hold Hcur. rewrite (proj2 (String.eqb_eq old "") Hold).
    rewrite (bind_Ret os _ _ _ _ _ _ (currentBranch_eq os w)).
    fold (branchReported (fst (spawn os showCurrent w))). fold cur.
    rewrite (proj2 (String.eqb_neq cur "") Hcur).
    cbn [orb]. rewrite execute_run. cbn [trace fst snd app].
    destruct (err (fst (spawn os showCurrent w))); destruct (err _); reflexivity.
  - intros Hold Hcur. rewrite (proj2 (String.eqb_eq old "") Hold).
    rewrite (bind_Ret os _ _ _ _ _ _ (currentBranch_eq os w)).
    fold (branchReported (fst (spawn os showCurrent w))). fold cur.
    rewrite (proj2 (String.eqb_eq cur "") Hcur). cbn [orb trace fst snd app].
    rewrite bind_print. cbn [trace fst snd emit].
    destruct (err (fst (spawn os showCurrent w))); split;
      try reflexivity; [eexists [_; _] | eexists [_]]; reflexivity.
Qed.

Lemma mv_with_new_name_flag_witness :
  spawned (trace onFeature
             (renameBranch onFeature ["-name"; "old"; "-new-name"; "new"; "ignored"] []))
  = [["sh"; "-c"; "git branch -m old new"]]
  /\ spawned (trace onFeature (renameBranch onFeature ["--new-name=new"] []))
     = [showCurrent; ["sh"; "-c"; "git branch -m feature new"]]
  /\ spawned (trace noCurrentBranch (renameBranch noCurrentBranch ["--new-name=new"] []))
     = [showCurrent].
Proof.
  split; [|split].
  - refine (proj1 (mv_with_new_name_flag onFeature
              ["-name"; "old"; "-new-name"; "new"; "ignored"]%string
              [("name", "old"); ("new-name", "new")]%string ["ignored"]%string [] eq_refl _) _);
      discriminate.
  - refine (proj1 (proj2 (mv_with_new_name_flag onFeature ["--new-name=new"]%string
              [("name", ""); ("new-name", "new")]%string [] [] eq_refl _)) eq_refl _);
      discriminate.
  - refine (proj1 (proj2 (proj2 (mv_with_new_name_flag noCurrentBranch ["--new-name=new"]%string
              [("name", ""); ("new-name", "new")]%string [] [] eq_refl _)) eq_refl eq_refl));
      discriminate.
Defined.

(** X8.  [status] always shows the short status first, then asks; the diff
    is shown exactly when the word read is [y], [Y] or empty.  [n], and any
    other word, ends the handler after the status. *)
Theorem status_shows_diff_on_yes_or_empty :
  forall (os : OS) (w : World os),
    let w1 := snd (spawn os ["sh"; "-c"; "git status --short --branch"%string] w) in
    let response := fst (scanln os w1) in
    shellCommands (trace os (status os w)) =
    "git status --short --branch"%string
    :: (if ((response =? "y") || (response =? "Y") || (response =? ""))%string
        then ["git diff | bat --paging=always"%string]
        else [])
    /\ outcome os (status os w) = Ret tt
    /\ exists t1 t2,
        trace os (status os w) =
        t1 ++ [Stdout (nl ++ "Proceed with diff? [Y/n]: "); Stdin response] ++ t2
        /\ shellCommands t1 = ["git status --short --branch"%string].
Proof.
  intros os w w1 response. unfold status.
  rewrite bind_execute. cbn zeta. fold w1. rewrite bind_print, !bind_Scanln.
  cbn [outcome trace world fst snd app].
  fold response. rewrite ToLower_y.
  destruct ((response =? "y") || (response =? "Y") || (response =? ""))%string.
  - rewrite execute_run. cbn [outcome trace world fst snd].
    split; [|split].
    + rewrite shellCommands_app, !shellCommands_executed. cbn [shellCommands app].
      rewrite shellCommands_executed. reflexivity.
    + reflexivity.
    + do 2 eexists. split; [reflexivity | apply shellCommands_executed].
  - cbn [outcome trace world fst snd ret].
    split; [|split].
    + rewrite shellCommands_app, !shellCommands_executed. reflexivity.
    + reflexivity.
    + exists (executed "git status --short --branch"
                (err (fst (spawn os ["sh"; "-c"; "git status --short --branch"%string] w)))), [].
      split; [reflexivity | apply shellCommands_executed].
Qed.

(** X9.  [pack] always stages first, then asks; it commits unless the word
    read is [n] or [N]: an empty line, and any other word, commits, and so
    does a staging child that failed. *)
Theorem pack_commits_unless_refused :
  forall (os : OS) (w : World os),
    let w1 := snd (spawn os ["sh"; "-c"; "git add -p"%string] w) in
    let response := fst (scanln os w1) in
    shellCommands (trace os (pack os w)) =
    "git add -p"%string
    :: (if ((response =? "n") || (response =? "N"))%string
        then []
        else ["git commit --verbose"%string])
    /\ outcome os (pack os w) = Ret tt.
Proof.
  intros os w w1 response. unfold pack.
  rewrite bind_execute. cbn zeta. fold w1. rewrite bind_print, !bind_Scanln.
  cbn [outcome trace world fst snd app].
  fold response. rewrite ToLower_n.
  destruct ((response =? "n") || (response =? "N"))%string.
  - cbn [outcome trace world fst snd ret].
    split; [|reflexivity].
    rewrite shellCommands_app, !shellCommands_executed. reflexivity.
  - rewrite execute_run. cbn [outcome trace world fst snd].
    split; [|reflexivity].
    rewrite shellCommands_app, !shellCommands_executed. cbn [shellCommands app].
    rewrite shellCommands_executed. reflexivity.
Qed.

(** X10.  A [git cherry] that fails ends [cherryLog] with its error line:
    no heading is printed and no log is asked for. *)
Theorem cherryLog_cherry_failure_is_reported :
  forall (os : OS) branch msg (w : World os),
    branch <> ""%string ->
    err (fst (spawn os revParse w)) = None ->
    let w1 := snd (spawn os revParse w) in
    err (fst (spawn os (gitCherry "master" branch) w1)) = Some msg ->
    cherryLog os branch w =
    (Ret tt,
     [Spawn revParse; Spawn (gitCherry "master" branch);
      Stdout ("Error running git cherry: " ++ msg ++ nl)],
     snd (spawn os (gitCherry "master" branch) w1)).
Proof.
  intros os branch msg w Hb Hc w1 He. unfold cherryLog.
  rewrite (bind_Ret os _ _ _ _ _ _ (checkGitRepo_ok os w Hc)).
  rewrite (proj2 (String.eqb_neq branch "") Hb), bind_run.
  fold (gitCherry "master" branch). fold w1. rewrite He. reflexivity.
Qed.

Lemma cherryLog_cherry_failure_witness :
  printed (trace (scripted (answer [(gitCherry "master" "nope", failed "exit status 128")]))
             (cherryLog (scripted (answer [(gitCherry "master" "nope", failed "exit status 128")]))
                "nope" []))
  = [("Error running git cherry: exit status 128" ++ nl)%string].
Proof.
  rewrite (cherryLog_cherry_failure_is_reported
             (scripted (answer [(gitCherry "master" "nope", failed "exit status 128")]))
             "nope" "exit status 128" [] ltac:(discriminate) eq_refl eq_refl).
  reflexivity.
Defined.

Lemma cherryLoop_logs (os : OS) lines (w : World os) :
  spawned (trace os (forEach os (cherryLine os) lines w)) = map gitLog (commitHashes lines).
Proof.
  revert w. induction lines as [|line lines IH]; intros w; [reflexivity|].
  cbn [forEach commitHashes]. unfold bind.
  rewrite cherryLine_returns. cbn [trace fst snd].
  assert (Happ : forall t1 t2, spawned (t1 ++ t2) = spawned t1 ++ spawned t2).
  { induction t1 as [|e t1 IH1]; intros t2; [reflexivity|].
    destruct e; cbn [app spawned]; rewrite ?IH1; reflexivity. }
  rewrite Happ, IH.
  destruct (strings.Fields line) as [|a [|b l]] eqn:E.
  - rewrite cherryLine_skip; [reflexivity | rewrite E; cbn; lia].
  - rewrite cherryLine_skip; [reflexivity | rewrite E; cbn; lia].
  - rewrite (cherryLine_run os _ _ _ _ w E). cbn [trace fst snd map].
    destruct (err _); [reflexivity|]. cbn zeta.
    destruct (a =? "+")%string; [reflexivity|].
    destruct (a =? "-")%string; reflexivity.
Qed.

(** X11.  Once [git cherry] succeeded, [cherryLog] asks for exactly one log
    per line that has at least two fields, for its second field and in the
    order of the lines, whatever the sign and whether or not earlier logs
    failed; it starts no other process and always returns. *)
Theorem cherryLog_one_log_per_wellformed_line :
  forall (os : OS) branch (w : World os),
    branch <> ""%string ->
    err (fst (spawn os revParse w)) = None ->
    let w1 := snd (spawn os revParse w) in
    let cherry := fst (spawn os (gitCherry "master" branch) w1) in
    err cherry = None ->
    spawned (trace os (cherryLog os branch w)) =
    revParse :: gitCherry "master" branch
    :: map gitLog (commitHashes (strings.Split (strings.TrimSpace (output cherry)) nl))
    /\ outcome os (cherryLog os branch w) = Ret tt.
Proof.
  intros os branch w Hb Hc w1 cherry He.
  rewrite (cherryLog_run os branch w Hb Hc He). cbn [trace outcome fst snd spawned].
  rewrite cherryLoop_logs. split; reflexivity.
Qed.

Lemma cherryLog_one_log_witness :
  spawned (trace withCherry (cherryLog withCherry "feature" []))
  = [revParse; gitCherry "master" "feature"; gitLog "abc123"; gitLog "def456"; gitLog "0a1b2c"].
Proof.
  exact (proj1 (cherryLog_one_log_per_wellformed_line withCherry "feature" []
                  ltac:(discriminate) eq_refl eq_refl)).
Defined.

(** *** Outcomes *)

Section Outcomes.

Variable os : OS.
Variable codes : list Z.

Lemma ew_ret {A} (a : A) : exitsWith os codes (ret os a).
Proof. intros w. left. exists a. reflexivity. Qed.

Lemma ew_emit e : exitsWith os codes (emit os e).
Proof. intros w. left. exists tt. reflexivity. Qed.

Lemma ew_print text : exitsWith os codes (print os text).
Proof. apply ew_emit. Qed.

Lemma ew_run argv : exitsWith os codes (run os argv).
Proof. intros w. left. eexists. reflexivity. Qed.

Lemma ew_Scanln : exitsWith os codes (Scanln os).
Proof. intros w. left. eexists. reflexivity. Qed.

Lemma ew_exit {A} c : In c codes -> exitsWith os codes (@exit os A c).
Proof. intros H w. right. exists c. split; [exact H | reflexivity]. Qed.

Lemma ew_bind {A B} (m : M os A) (f : A -> M os B) :
  exitsWith os codes m -> (forall a, exitsWith os codes (f a)) ->
  exitsWith os codes (bind os m f).
Proof.
  intros Hm Hf w. unfold bind.
  destruct (Hm w) as [[a Ha]|(c & Hc & Ha)]; rewrite Ha.
  - cbn [outcome fst]. apply Hf.
  - right. exists c. split; [exact Hc | reflexivity].
Qed.

Lemma ew_execute command : exitsWith os codes (execute os command).
Proof. intros w. left. exists tt. apply execute_returns. Qed.

Lemma ew_forEach {A} (body : A -> M os unit) l :
  (forall x, exitsWith os codes (body x)) -> exitsWith os codes (forEach os body l).
Proof.
  intros Hb. induction l as [|x l IH]; cbn [forEach]; [apply ew_ret|].
  apply ew_bind; [apply Hb | intros _; exact IH].
Qed.

Lemma ew_forRange {A} (body : Z -> A -> M os unit) i l :
  (forall j x, exitsWith os codes (body j x)) -> exitsWith os codes (forRange os body i l).
Proof.
  intros Hb. revert i. induction l as [|x l IH]; intros i; cbn [forRange]; [apply ew_ret|].
  apply ew_bind; [apply Hb | intros _; apply IH].
Qed.

Lemma ew_selectBranch branches choice : exitsWith os codes (selectBranch os branches choice).
Proof.
  intros w. left. exists tt.
  destruct (selectBranch_run os branches choice w)
    as [[_ E]|[(_ & _ & E)|(i & b & e & w' & _ & _ & _ & _ & E)]];
    rewrite E; reflexivity.
Qed.

End Outcomes.

Ltac exits_step :=
  first
    [ apply ew_ret | apply ew_print | apply ew_emit | apply ew_run | apply ew_Scanln
    | apply ew_execute | apply ew_selectBranch
    | apply ew_exit; cbn; tauto
    | apply ew_bind; [|intros ?]
    | match goal with
      | |- exitsWith _ _ (match ?x with _ => _ end) => destruct x
      end ].

Section MainOutcome.

Variable os : OS.

Local Abbreviation ends := (exitsWith os [0; 1; 2]%Z).

Lemma ends_Parse f arguments : ends (Parse os f arguments).
Proof. unfold Parse. repeat exits_step. Qed.

Lemma ends_checkGitRepo : ends (checkGitRepo os).
Proof. unfold checkGitRepo. repeat exits_step. Qed.

Lemma ends_currentBranch : ends (currentBranch os).
Proof. unfold currentBranch. repeat exits_step. Qed.

Lemma ends_update args : ends (update os args).
Proof. unfold update. apply ew_bind; [apply ends_Parse | intros ?]. repeat exits_step. Qed.

Lemma ends_refresh args : ends (refresh os args).
Proof. unfold refresh. apply ew_bind; [apply ends_Parse | intros ?]. repeat exits_step. Qed.

Lemma ends_rehydrate args : ends (rehydrate os args).
Proof. unfold rehydrate. apply ew_bind; [apply ends_Parse | intros ?]. repeat exits_step. Qed.

Lemma ends_split args : ends (split os args).
Proof. unfold split. apply ew_bind; [apply ends_Parse | intros ?]. repeat exits_step. Qed.

Lemma ends_push args : ends (push os args).
Proof.
  unfold push. apply ew_bind; [apply ends_Parse | intros ?].
  apply ew_bind; [|intros ?; apply ew_execute].
  destruct (_ =? _)%string; [apply ends_currentBranch | apply ew_ret].
Qed.

Lemma ends_renameBranch args : ends (renameBranch os args).
Proof.
  unfold renameBranch. apply ew_bind; [apply ends_Parse | intros mv]. cbv zeta.
  assert (Hn : forall o n (b : bool),
    ends (bind os (if (o =? "")%string then currentBranch os else ret os o)
            (fun oldName =>
               if ((oldName =? "")%string || b)
               then bind os (print os ("Error: Both old and new branch names are required." ++ nl))
                      (fun _ => emit os (Usage (flag.name mv)))
               else execute os ("git branch -m " ++ oldName ++ " " ++ n)))).
  { intros o n b. apply ew_bind.
    - destruct (o =? "")%string; [apply ends_currentBranch | apply ew_ret].
    - intros ?. repeat exits_step. }
  destruct (flag.get mv "new-name" =? "")%string; [|exact (Hn _ _ _)].
  destruct (flag.NArg mv =? 1)%nat.
  - apply ew_bind; [apply ends_currentBranch | intros ?; exact (Hn _ _ _)].
  - repeat exits_step.
Qed.

Lemma ends_cleanup : ends (cleanup os).
Proof.
  unfold cleanup. apply ew_bind; [apply ew_run | intros p].
  destruct (err p); [apply ew_print|].
  apply ew_forEach. intros line. unfold cleanupBranch. repeat exits_step.
Qed.

Lemma ends_recent : ends (recent os).
Proof.
  unfold recent. apply ew_bind; [apply ew_run | intros p].
  destruct (err p); [apply ew_print|].
  destruct (_ =? 0)%nat; [apply ew_print|].
  apply ew_bind; [apply ew_print | intros _].
  apply ew_bind; [apply ew_forRange; intros; apply ew_print | intros _].
  repeat exits_step.
Qed.

Lemma ends_cherryLog branch : ends (cherryLog os branch).
Proof.
  unfold cherryLog. apply ew_bind; [apply ends_checkGitRepo | intros _]. cbv zeta.
  destruct (_ =? "")%string; [apply ew_print|].
  apply ew_bind; [apply ew_run | intros p].
  destruct (err p); [apply ew_print|].
  destruct (_ =? 0)%nat; [apply ew_print|].
  apply ew_bind; [apply ew_print | intros _].
  apply ew_forEach. intros line. unfold cherryLine. repeat exits_step.
Qed.

Lemma ends_main osArgs : ends (main os osArgs).
Proof.
  unfold main. apply ew_bind; [apply ends_checkGitRepo | intros _].
  destruct osArgs as [|p [|command args]]; try (unfold displayHelp; apply ew_print).
  repeat match goal with
         | |- exitsWith _ _ (if ?b then _ else _) => destruct b
         end;
    first [ apply ends_update | apply ends_refresh | apply ends_rehydrate | apply ends_split
          | apply ends_push | apply ends_renameBranch | apply ends_cleanup
          | apply ends_recent | idtac ].
  - unfold stash. apply ew_execute.
  - unfold pack. repeat exits_step.
  - unfold shove. repeat exits_step.
  - unfold status. repeat exits_step.
  - destruct args; [apply ew_print | apply ends_cherryLog].
  - unfold displayHelp. repeat exits_step.
Qed.

End MainOutcome.

(** X12.  [main] never panics.  Whatever the arguments, the answers of the
    children and the words typed, a run of brk ends by returning from [main]
    (exit status 0) or by [os.Exit] with status 0, 1 or 2. *)
Theorem main_returns_or_exits_0_1_2 :
  forall (os : OS) (osArgs : list string) (w : World os),
    outcome os (main os osArgs w) = Ret tt
    \/ outcome os (main os osArgs w) = Exit 0
    \/ outcome os (main os osArgs w) = Exit 1
    \/ outcome os (main os osArgs w) = Exit 2.
Proof.
  intros os osArgs w.
  destruct (ends_main os osArgs w) as [[[] H]|(c & Hc & H)]; rewrite H.
  - left. reflexivity.
  - cbn [In] in Hc. destruct Hc as [<-|[<-|[<-|[]]]]; tauto.
Qed.

(** *** Dispatch *)

Lemma main_after_check (os : OS) p command args (w : World os) :
  err (fst (spawn os revParse w)) = None ->
  main os (p :: command :: args) w =
  preceded os [Spawn revParse]
    (bind os (ret os tt) (fun _ => 
       if (command =? "update")%string then update os args
       else if (command =? "refresh")%string then refresh os args
       else if (command =? "rehydrate")%string then rehydrate os args
       else if (command =? "split")%string then split os args
       else if (command =? "push")%string then push os args
       else if (command =? "mv")%string then renameBranch os args
       else if (command =? "cleanup")%string then cleanup os
       else if (command =? "hide")%string then stash os
       else if (command =? "pack")%string then pack os
       else if (command =? "recent")%string then recent os
       else if (command =? "shove")%string then shove os
       else if (command =? "status")%string then status os
       else if (command =? "cherry-log")%string then
         match args with
         | [] => print os ("Usage: brk cherry-log <branch>" ++ nl)
         | branch :: _ => cherryLog os branch
         end
       else bind os (print os ("Unknown command: " ++ command ++ nl))
              (fun _ => displayHelp os))
       (snd (spawn os revParse w))).
Proof.
  intros Hc. unfold main.
  rewrite (bind_Ret os _ _ _ _ _ _ (checkGitRepo_ok os w Hc)), bind_ret.
  reflexivity.
Qed.

(** X13.  Inside a working tree, each command name makes [main] run the
    handler of that name, and only it, on the arguments that follow the
    name; the program name plays no part. *)
Theorem main_runs_the_named_handler :
  forall (os : OS) p args (w : World os),
    err (fst (spawn os revParse w)) = None ->
    let w1 := snd (spawn os revParse w) in
    main os (p :: "update"%string :: args) w = preceded os [Spawn revParse] (update os args w1)
    /\ main os (p :: "refresh"%string :: args) w = preceded os [Spawn revParse] (refresh os args w1)
    /\ main os (p :: "rehydrate"%string :: args) w
       = preceded os [Spawn revParse] (rehydrate os args w1)
    /\ main os (p :: "split"%string :: args) w = preceded os [Spawn revParse] (split os args w1)
    /\ main os (p :: "push"%string :: args) w = preceded os [Spawn revParse] (push os args w1)
    /\ main os (p :: "mv"%string :: args) w
       = preceded os [Spawn revParse] (renameBranch os args w1)
    /\ main os (p :: "cleanup"%string :: args) w = preceded os [Spawn revParse] (cleanup os w1)
    /\ main os (p :: "hide"%string :: args) w = preceded os [Spawn revParse] (stash os w1)
    /\ main os (p :: "pack"%string :: args) w = preceded os [Spawn revParse] (pack os w1)
    /\ main os (p :: "recent"%string :: args) w = preceded os [Spawn revParse] (recent os w1)
    /\ main os (p :: "shove"%string :: args) w = preceded os [Spawn revParse] (shove os w1)
    /\ main os (p :: "status"%string :: args) w = preceded os [Spawn revParse] (status os w1).
Proof.
  intros os p args w Hc w1.
  repeat split; rewrite (main_after_check os _ _ _ w Hc), bind_ret; reflexivity.
Qed.

Lemma main_runs_the_named_handler_witness :
  shellCommands (trace quiet (main quiet ["brk"; "hide"] [])) = ["git stash"]
  /\ shellCommands (trace quiet (main quiet ["brk"; "shove"; "extra"] []))
     = ["git add -p"; "git commit --amend --no-edit"].
Proof.
  pose proof (main_runs_the_named_handler quiet "brk"%string [] [] eq_refl) as H1.
  pose proof (main_runs_the_named_handler quiet "brk"%string ["extra"%string] [] eq_refl) as H2.
  split.
  - rewrite (proj1 (proj2 (proj2 (proj2 (proj2 (proj2 (proj2 (proj2 H1)))))))). reflexivity.
  - rewrite (proj1 (proj2 (proj2 (proj2 (proj2 (proj2 (proj2 (proj2 (proj2 (proj2 (proj2 H2))))))))))).
    reflexivity.
Defined.

(** X14.  A command name [main] does not know is not an error: inside a
    working tree it prints the name, then the help text, starts no process
    and returns. *)
Theorem main_unknown_command_prints_help :
  forall (os : OS) p command args (w : World os),
    err (fst (spawn os revParse w)) = None ->
    ~ In command commandNames ->
    main os (p :: command :: args) w =
    (Ret tt,
     [Spawn revParse;
      Stdout ("Unknown command: " ++ command ++ nl);
      Stdout (helpText ++ nl)],
     snd (spawn os revParse w)).
Proof.
  intros os p command args w Hc Hn.
  rewrite (main_after_check os _ _ _ w Hc), bind_ret.
  unfold commandNames in Hn. cbn [In] in Hn.
  repeat match goal with
         | |- context [(command =? ?n)%string] =>
             destruct (String.eqb_spec command n) as [E|_];
             [exfalso; apply Hn; subst command;
              repeat (first [left; reflexivity | right])|]
         end.
  reflexivity.
Qed.

Lemma main_unknown_command_witness :
  printed (trace quiet (main quiet ["brk"; "stash"; "-x"] []))
  = [("Unknown command: stash" ++ nl)%string; (helpText ++ nl)%string].
Proof.
  rewrite (main_unknown_command_prints_help quiet "brk" "stash" ["-x"%string] [] eq_refl).
  - reflexivity.
  - cbn. intros H. repeat (destruct H as [H|H]; [discriminate|]). exact H.
Defined.

(** X15.  [cherry-log] without a branch prints its usage line after the
    repository check and does nothing else.  With a branch, [cherryLog]
    checks the repository a second time before anything else, and exits with
    status 1 if that second check fails; an empty branch name gets the usage
    line after the second check.  Arguments after the branch are ignored. *)
Theorem main_cherry_log_checks_twice :
  forall (os : OS) p (w : World os),
    err (fst (spawn os revParse w)) = None ->
    let w1 := snd (spawn os revParse w) in
    main os [p; "cherry-log"%string] w =
    (Ret tt, [Spawn revParse; Stdout ("Usage: brk cherry-log <branch>" ++ nl)], w1)
    /\ (forall branch rest,
           main os (p :: "cherry-log"%string :: branch :: rest) w
           = preceded os [Spawn revParse] (cherryLog os branch w1)
           /\ exists t, trace os (main os (p :: "cherry-log"%string :: branch :: rest) w)
                        = Spawn revParse :: Spawn revParse :: t)
    /\ (forall branch rest,
           err (fst (spawn os revParse w1)) <> None ->
           outcome os (main os (p :: "cherry-log"%string :: branch :: rest) w) = Exit 1)
    /\ (forall rest,
           err (fst (spawn os revParse w1)) = None ->
           main os (p :: "cherry-log"%string :: ""%string :: rest) w =
           (Ret tt,
            [Spawn revParse; Spawn revParse; Stdout ("Usage: brk cherry-log <branch>" ++ nl)],
            snd (spawn os revParse w1))).
Proof.
  intros os p w Hc w1.
  split; [|split; [|split]].
  - rewrite (main_after_check os _ _ _ w Hc), bind_ret. reflexivity.
  - intros branch rest.
    rewrite (main_after_check os _ _ _ w Hc), bind_ret.
    cbn [String.eqb Ascii.eqb Bool.eqb andb]. fold w1.
    split; [reflexivity|].
    unfold preceded. cbn [trace fst snd app]. unfold cherryLog.
    destruct (err (fst (spawn os revParse w1))) as [msg|] eqn:E2.
    + assert (Hf : err (fst (spawn os revParse w1)) <> None) by (rewrite E2; discriminate).
      rewrite (bind_Exit os _ _ _ _ _ _ (checkGitRepo_fail os w1 Hf)).
      eexists. reflexivity.
    + rewrite (bind_Ret os _ _ _ _ _ _ (checkGitRepo_ok os w1 E2)).
      eexists. reflexivity.
  - intros branch rest Hf.
    rewrite (main_after_check os _ _ _ w Hc), bind_ret.
    cbn [String.eqb Ascii.eqb Bool.eqb andb]. fold w1.
    unfold preceded, cherryLog. cbn [outcome fst].
    rewrite (bind_Exit os _ _ _ _ _ _ (checkGitRepo_fail os w1 Hf)). reflexivity.
  - intros rest Hc2.
    rewrite (main_after_check os _ _ _ w Hc), bind_ret.
    cbn [String.eqb Ascii.eqb Bool.eqb andb]. fold w1.
    unfold preceded, cherryLog.
    rewrite (bind_Ret os _ _ _ _ _ _ (checkGitRepo_ok os w1 Hc2)). reflexivity.
Qed.

Lemma main_cherry_log_witness :
  main quiet ["brk"; "cherry-log"] [] =
  (Ret tt, [Spawn revParse; Stdout ("Usage: brk cherry-log <branch>" ++ nl)], [])
  /\ main quiet ["brk"; "cherry-log"; ""; "x"] [] =
     (Ret tt, [Spawn revParse; Spawn revParse; Stdout ("Usage: brk cherry-log <branch>" ++ nl)],
      []).
Proof.
  pose proof (main_cherry_log_checks_twice quiet "brk"%string [] eq_refl) as (H1 & _ & _ & H4).
  split; [exact H1 | exact (H4 ["x"%string] eq_refl)].
Defined.

(** *** cleanup, once more *)

Lemma cleanupBranch_eq (os : OS) line (w : World os) :
  cleanupBranch os line w =
  match strings.Fields line with
  | branch :: age :: _ =>
      if strings.Contains age "month" || strings.Contains age "year" then
        let response := fst (scanln os w) in
        let w1 := snd (scanln os w) in
        let command := ("git branch -d " ++ branch)%string in
        if ((response =? "y") || (response =? "Y"))%string then
          (Ret tt,
           Stdout ("Branch: " ++ branch ++ ", Age: " ++ age ++ ". Delete? [y/N] ")
           :: Stdin response
           :: executed command (err (fst (spawn os ["sh"; "-c"; command] w1))),
           snd (spawn os ["sh"; "-c"; command] w1))
        else
          (Ret tt,
           [Stdout ("Branch: " ++ branch ++ ", Age: " ++ age ++ ". Delete? [y/N] ");
            Stdin response],
           w1)
      else (Ret tt, [], w)
  | _ => (Ret tt, [], w)
  end.
Proof.
  unfold cleanupBranch.
  destruct (strings.Fields line) as [|branch [|age rest]]; try reflexivity.
  destruct (strings.Contains age "month" || strings.Contains age "year"); [|reflexivity].
  rewrite bind_print, bind_Scanln. cbn zeta. rewrite ToLower_y.
  destruct ((_ =? "y") || (_ =? "Y"))%string.
  - rewrite execute_run. reflexivity.
  - reflexivity.
Qed.

Lemma cleanupBranch_returns (os : OS) line (w : World os) :
  outcome os (cleanupBranch os line w) = Ret tt.
Proof.
  rewrite cleanupBranch_eq.
  destruct (strings.Fields line) as [|branch [|age rest]]; try reflexivity.
  destruct (strings.Contains age "month" || strings.Contains age "year"); [|reflexivity].
  cbn zeta. destruct ((_ =? "y") || (_ =? "Y"))%string; reflexivity.
Qed.

(** X16.  A line of the branch list that passes the age test makes
    [cleanup] print one prompt naming the branch and read one word, in its
    turn among the lines.  Only [y] and [Y] delete, with the non-forcing
    [git branch -d]; the empty line and every other word leave the branch
    alone, and [cleanup] goes on with the next line.  The same holds of the
    body of the loop in any world. *)
Theorem cleanup_deletes_only_on_yes :
  forall (os : OS) (w : World os) l1 line l2 branch age rest,
    err (fst (spawn os branchAges w)) = None ->
    strings.Split (strings.TrimSpace (output (fst (spawn os branchAges w)))) nl
    = l1 ++ line :: l2 ->
    strings.Fields line = branch :: age :: rest ->
    strings.Contains age "month" || strings.Contains age "year" = true ->
    let before := forEach os (cleanupBranch os) l1 (snd (spawn os branchAges w)) in
    let response := fst (scanln os (world os before)) in
    let w1 := snd (scanln os (world os before)) in
    let command := ("git branch -d " ++ branch)%string in
    let yes := ((response =? "y") || (response =? "Y"))%string in
    let child := spawn os ["sh"; "-c"; command] w1 in
    trace os (cleanup os w) =
    Spawn branchAges
    :: trace os before
       ++ (Stdout ("Branch: " ++ branch ++ ", Age: " ++ age ++ ". Delete? [y/N] ")
           :: Stdin response
           :: (if yes then executed command (err (fst child)) else []))
       ++ trace os (forEach os (cleanupBranch os) l2 (if yes then snd child else w1))
    /\ outcome os (cleanup os w) = Ret tt
    /\ (forall w' : World os,
           let response' := fst (scanln os w') in
           outcome os (cleanupBranch os line w') = Ret tt
           /\ printed (trace os (cleanupBranch os line w')) <> []
           /\ hd_error (trace os (cleanupBranch os line w'))
              = Some (Stdout ("Branch: " ++ branch ++ ", Age: " ++ age ++ ". Delete? [y/N] "))
           /\ typed (trace os (cleanupBranch os line w')) = [response']
           /\ spawned (trace os (cleanupBranch os line w')) =
              if ((response' =? "y") || (response' =? "Y"))%string
              then [["sh"; "-c"; ("git branch -d " ++ branch)%string]]
              else []).
Proof.
  intros os w l1 line l2 branch age rest He HS HF HT before response w1 command yes child.
  split; [|split].
  - unfold cleanup. rewrite bind_run. fold branchAges. rewrite He, HS.
    cbn [trace fst snd]. f_equal.
    rewrite (forEach_mid os (cleanupBranch os) l1 line l2 _ (cleanupBranch_returns os)).
    fold before. f_equal.
    rewrite cleanupBranch_eq, HF, HT. cbn zeta.
    fold response. fold w1. fold command. fold yes. fold child.
    destruct yes; reflexivity.
  - unfold cleanup. rewrite bind_run. fold branchAges. rewrite He.
    apply (proj2 (forEach_app os (cleanupBranch os) [] _ _ (cleanupBranch_returns os))).
  - clear He HS before response w1 command yes child. intros w' response'.
    rewrite cleanupBranch_eq, HF, HT. cbn zeta. fold response'.
    destruct ((response' =? "y") || (response' =? "Y"))%string;
      cbn [outcome trace fst snd printed hd_error typed spawned].
    + repeat split; try discriminate; destruct (err _); reflexivity.
    + repeat split; discriminate.
Qed.

Lemma cleanup_deletes_only_on_yes_witness :
  trace oneWordAges (cleanup oneWordAges ["Y"]) =
  [Spawn branchAges;
   Stdout "Branch: topic, Age: 5months. Delete? [y/N] ";
   Stdin "Y";
   Stdout ("Executing: git branch -d topic" ++ nl);
   Forward ["sh"; "-c"; "git branch -d topic"];
   Stdout "Branch: legacy, Age: 2years. Delete? [y/N] ";
   Stdin ""]
  /\ trace oneWordAges (cleanup oneWordAges ["yes"; "no"]) =
     [Spawn branchAges;
      Stdout "Branch: topic, Age: 5months. Delete? [y/N] ";
      Stdin "yes";
      Stdout "Branch: legacy, Age: 2years. Delete? [y/N] ";
      Stdin "no"]
  /\ shellCommands (trace oneWordAges (cleanup oneWordAges [])) = [].
Proof.
  split; [|split].
  - exact (eq_trans
             (proj1 (cleanup_deletes_only_on_yes oneWordAges ["Y"%string]
                       ["main 3days"%string] "topic 5months" ["legacy 2years"%string]
                       "topic" "5months" [] eq_refl eq_refl eq_refl eq_refl))
             eq_refl).
  - exact (eq_trans
             (proj1 (cleanup_deletes_only_on_yes oneWordAges ["yes"; "no"]%string
                       ["main 3days"%string] "topic 5months" ["legacy 2years"%string]
                       "topic" "5months" [] eq_refl eq_refl eq_refl eq_refl))
             eq_refl).
  - exact (eq_trans
             (f_equal shellCommands
                (proj1 (cleanup_deletes_only_on_yes oneWordAges []
                          ["main 3days"%string] "topic 5months" ["legacy 2years"%string]
                          "topic" "5months" [] eq_refl eq_refl eq_refl eq_refl)))
             eq_refl).
Defined.

Lemma typed_app t1 t2 : typed (t1 ++ t2) = typed t1 ++ typed t2.
Proof.
  induction t1 as [|e t1 IH]; [reflexivity|].
  destruct e; cbn [app typed]; rewrite ?IH; reflexivity.
Qed.

Lemma typed_executed command e : typed (executed command e) = [].
Proof. destruct e; reflexivity. Qed.

Lemma cleanupLoop (os : OS) lines (w : World os) :
  List.length (typed (trace os (forEach os (cleanupBranch os) lines w)))
  = List.length (deletions lines)
  /\ incl (shellCommands (trace os (forEach os (cleanupBranch os) lines w))) (deletions lines)
  /\ List.length (shellCommands (trace os (forEach os (cleanupBranch os) lines w)))
     <= List.length (deletions lines).
Proof.
  revert w. induction lines as [|line lines IH]; intros w.
  - cbn. repeat split; [apply incl_refl | lia].
  - cbn [forEach deletions]. unfold bind.
    rewrite cleanupBranch_eq.
    destruct (strings.Fields line) as [|branch [|age rest]];
      try (cbn [outcome trace world fst snd app]; apply IH).
    destruct (strings.Contains age "month" || strings.Contains age "year");
      [|cbn [outcome trace world fst snd app]; apply IH].
    cbn zeta.
    destruct ((_ =? "y") || (_ =? "Y"))%string; cbn [outcome trace world fst snd].
    + match goal with
      | |- context [forEach os (cleanupBranch os) lines ?w'] =>
          destruct (IH w') as (I1 & I2 & I3)
      end.
      rewrite typed_app, shellCommands_app. cbn [typed shellCommands app].
      rewrite typed_executed, shellCommands_executed. cbn [app List.length].
      repeat split; [lia | | lia].
      intros c [<-|Hc]; [left; reflexivity | right; apply I2, Hc].
    + match goal with
      | |- context [forEach os (cleanupBranch os) lines ?w'] =>
          destruct (IH w') as (I1 & I2 & I3)
      end.
      cbn [app typed shellCommands List.length].
      repeat split; [lia | | lia].
      intros c Hc. right. apply I2, Hc.
Qed.

(** X17.  Over the whole branch list, [cleanup] reads exactly one word per
    line that passes the age test, and every command it hands to the shell
    is the non-forcing deletion of the branch named on such a line: it never
    deletes a branch it did not ask about and never starts anything else. *)
Theorem cleanup_only_deletes_branches_it_asked_about :
  forall (os : OS) (w : World os),
    err (fst (spawn os branchAges w)) = None ->
    let lines :=
      strings.Split (strings.TrimSpace (output (fst (spawn os branchAges w)))) nl in
    let t := trace os (cleanup os w) in
    List.length (typed t) = List.length (deletions lines)
    /\ incl (shellCommands t) (deletions lines)
    /\ List.length (shellCommands t) <= List.length (deletions lines)
    /\ outcome os (cleanup os w) = Ret tt.
Proof.
  intros os w He lines t. unfold t, cleanup.
  rewrite bind_run. fold branchAges. rewrite He. fold lines.
  cbn [outcome trace fst snd typed shellCommands].
  destruct (cleanupLoop os lines (snd (spawn os branchAges w))) as (H1 & H2 & H3).
  repeat split; try assumption.
  apply (proj2 (forEach_app os (cleanupBranch os) [] lines _ (cleanupBranch_returns os))).
Qed.

Lemma cleanup_only_deletes_witness :
  List.length (typed (trace oneWordAges (cleanup oneWordAges ["y"; "n"]))) = 2
  /\ shellCommands (trace oneWordAges (cleanup oneWordAges ["y"; "n"])) = ["git branch -d topic"].
Proof.
  split; [|reflexivity].
  exact (proj1 (cleanup_only_deletes_branches_it_asked_about oneWordAges ["y"; "n"]%string
                  eq_refl)).
Defined.

(** X18.  When the child that lists the branches fails, [cleanup] and
    [recent] print their own error line with the child's error and return:
    nothing is listed, nothing is asked, nothing is read and no other process
    is started. *)
Theorem failed_listing_is_reported :
  forall (os : OS) (w : World os),
    (forall msg,
        err (fst (spawn os branchAges w)) = Some msg ->
        cleanup os w =
        (Ret tt, [Spawn branchAges; Stdout ("Error getting branch list: " ++ msg ++ nl)],
         snd (spawn os branchAges w)))
    /\ (forall msg,
           err (fst (spawn os recentBranches w)) = Some msg ->
           recent os w =
           (Ret tt,
            [Spawn recentBranches; Stdout ("Error fetching recent branches: " ++ msg ++ nl)],
            snd (spawn os recentBranches w))).
Proof.
  intros os w. split; intros msg He.
  - unfold cleanup. rewrite bind_run. fold branchAges. rewrite He. reflexivity.
  - unfold recent. rewrite bind_run. fold recentBranches. rewrite He. reflexivity.
Qed.

Lemma failed_listing_witness :
  printed (trace allFail (cleanup allFail ["y"]))
  = [("Error getting branch list: exit status 1" ++ nl)%string]
  /\ typed (trace allFail (recent allFail ["1"])) = [].
Proof.
  destruct (failed_listing_is_reported allFail ["y"%string]) as [H1 _].
  destruct (failed_listing_is_reported allFail ["1"%string]) as [_ H2].
  rewrite (H1 _ eq_refl), (H2 _ eq_refl). split; reflexivity.
Defined.

(** *** Positional arguments *)

Lemma parseArgs_positional fl a rest :
  positional a = true -> flag.parseArgs fl (a :: rest) = flag.Done fl (a :: rest).
Proof.
  intros H. cbn [flag.parseArgs].
  destruct a as [|c0 [|c1 s2]]; try reflexivity.
  cbn [positional] in H. rewrite H. reflexivity.
Qed.

(** X19.  The flag package stops at the first argument that is not a flag,
    and the handlers that take their values from flags never look at what is
    left: [update], [refresh], [rehydrate] and [push] started with a
    positional argument do exactly what they do with no argument at all (so
    a branch given without its flag is ignored), and [split] reports that
    the branch name is required. *)
Theorem positional_arguments_are_ignored :
  forall (os : OS) a rest (w : World os),
    positional a = true ->
    update os (a :: rest) w = update os [] w
    /\ refresh os (a :: rest) w = refresh os [] w
    /\ rehydrate os (a :: rest) w = rehydrate os [] w
    /\ push os (a :: rest) w = push os [] w
    /\ split os (a :: rest) w =
       (Ret tt, [Stdout ("Error: Branch name is required." ++ nl); Usage "split"], w).
Proof.
  intros os a rest w H.
  unfold update, refresh, rehydrate, push, split.
  unfold flag.String, flag.NewFlagSet. cbn [flag.formal flag.name flag.args app].
  rewrite !(bind_Ret os _ _ _ _ _ _
              (Parse_done os _ _ _ _ _ _ w (parseArgs_positional _ a rest H))).
  rewrite !(bind_Ret os _ _ _ _ _ _ (Parse_done os _ _ _ [] _ _ w eq_refl)).
  repeat split.
Qed.

Lemma positional_arguments_witness :
  shellCommands (trace quiet (update quiet ["develop"] []))
  = ["git checkout master"; "git fetch origin"; "git rebase origin/master"]
  /\ printed (trace quiet (split quiet ["topic"] []))
     = [("Error: Branch name is required." ++ nl)%string].
Proof.
  destruct (positional_arguments_are_ignored quiet "develop" [] [] eq_refl) as (H1 & _).
  destruct (positional_arguments_are_ignored quiet "topic" [] [] eq_refl) as (_ & _ & _ & _ & H5).
  rewrite H1, H5. split; reflexivity.
Defined.

(** *** recent, once more *)

Lemma spawned_app t1 t2 : spawned (t1 ++ t2) = spawned t1 ++ spawned t2.
Proof.
  induction t1 as [|e t1 IH]; [reflexivity|].
  destruct e; cbn [app spawned]; rewrite ?IH; reflexivity.
Qed.

Lemma spawned_listing i branches : spawned (listing i branches) = [].
Proof. revert i. induction branches as [|b bs IH]; intros i; [reflexivity | apply IH]. Qed.

Lemma listing_nth branches : forall i k b,
  nth_error branches k = Some b ->
  nth_error (listing i branches) k
  = Some (Stdout ("[" ++ fmt.itoa (i + Z.of_nat k + 1) ++ "] " ++ b ++ nl)).
Proof.
  induction branches as [|x xs IH]; intros i k b H; [destruct k; discriminate|].
  destruct k as [|k].
  - injection H as <-. cbn [listing nth_error Z.of_nat]. rewrite Z.add_0_r. reflexivity.
  - cbn [nth_error] in H. cbn [listing nth_error]. rewrite (IH (i + 1)%Z k b H).
    replace (i + 1 + Z.of_nat k + 1)%Z with (i + Z.of_nat (S k) + 1)%Z by lia.
    reflexivity.
Qed.

(** X20.  For a list of any length, [recent] checks out the branch whose
    number was typed when the word read scans to a number between 1 and the
    length of the list, and that checkout is the only process it starts
    after the listing; a word that does not scan, or scans to a number
    outside that range, starts nothing. *)
Theorem recent_checks_out_the_numbered_branch :
  forall (os : OS) (w : World os),
    err (fst (spawn os recentBranches w)) = None ->
    let branches :=
      strings.Split (strings.TrimSpace (output (fst (spawn os recentBranches w)))) nl in
    let choice := fst (scanln os (snd (spawn os recentBranches w))) in
    choice <> ""%string ->
    (forall i b,
        fmt.Sscanf_d choice = Some i ->
        (1 <= i)%Z ->
        nth_error branches (Z.to_nat (i - 1)) = Some b ->
        spawned (trace os (recent os w))
        = [recentBranches; ["sh"; "-c"; ("git checkout " ++ b)%string]])
    /\ ((forall i, fmt.Sscanf_d choice = Some i ->
                   (i < 1 \/ Z.of_nat (List.length branches) < i)%Z) ->
        spawned (trace os (recent os w)) = [recentBranches]).
Proof.
  intros os w He branches choice Hne.
  rewrite (recent_run os w He). fold branches. fold choice.
  cbn [trace fst snd spawned]. rewrite spawned_app, spawned_listing.
  cbn [app spawned].
  set (w2 := snd (scanln os (snd (spawn os recentBranches w)))).
  destruct (selectBranch_run os branches choice w2)
    as [[Hn _]|[(_ & Hinv & E)|(i & b & e & w' & _ & Hs & Hr & Hb & E)]];
    [congruence| |]; rewrite E; cbn [trace fst snd spawned].
  - split; [|reflexivity].
    intros i b Hs H1 Hb. exfalso.
    destruct (Hinv i Hs) as [H|H]; [lia|].
    assert (Z.to_nat (i - 1) < List.length branches)%nat
      by (apply nth_error_Some; congruence).
    lia.
  - split.
    + intros i' b' Hs' _ Hb'. rewrite Hs in Hs'. injection Hs' as <-.
      rewrite Hb in Hb'. injection Hb' as <-. destruct e; reflexivity.
    + intros Hinv. exfalso. destruct (Hinv i Hs); lia.
Qed.

Lemma recent_checks_out_witness :
  spawned (trace fiveBranches (recent fiveBranches ["5"]))
  = [recentBranches; ["sh"; "-c"; "git checkout old"]]
  /\ spawned (trace fiveBranches (recent fiveBranches ["0"])) = [recentBranches]
  /\ spawned (trace fiveBranches (recent fiveBranches ["-1"])) = [recentBranches].
Proof.
  split; [|split].
  - refine (proj1 (recent_checks_out_the_numbered_branch fiveBranches ["5"%string] eq_refl _)
              5%Z "old"%string eq_refl _ eq_refl); [discriminate | lia].
  - refine (proj2 (recent_checks_out_the_numbered_branch fiveBranches ["0"%string] eq_refl _) _);
      [discriminate|]. intros i H. vm_compute in H. injection H as <-. left. lia.
  - refine (proj2 (recent_checks_out_the_numbered_branch fiveBranches ["-1"%string] eq_refl _) _);
      [discriminate|]. intros i H. vm_compute in H. injection H as <-. left. lia.
Defined.

(** X21.  [recent] prints the branches in the order of the listing, the
    branch at position [k] (from 0) as entry number [k + 1], right after the
    heading. *)
Theorem recent_numbers_entries_in_order :
  forall (os : OS) (w : World os) k b,
    err (fst (spawn os recentBranches w)) = None ->
    nth_error
      (strings.Split (strings.TrimSpace (output (fst (spawn os recentBranches w)))) nl) k
    = Some b ->
    nth_error (trace os (recent os w)) (2 + k)
    = Some (Stdout ("[" ++ fmt.itoa (Z.of_nat k + 1) ++ "] " ++ b ++ nl))
    /\ nth_error (trace os (recent os w)) 1 = Some (Stdout ("Recent branches:" ++ nl)).
Proof.
  intros os w k b He Hk. rewrite (recent_run os w He).
  cbn [trace fst snd Nat.add nth_error]. split; [|reflexivity].
  rewrite nth_error_app1.
  - rewrite (listing_nth _ 0 k b Hk). reflexivity.
  - apply nth_error_Some. rewrite (listing_nth _ 0 k b Hk). discriminate.
Qed.

Lemma recent_numbers_entries_witness :
  nth_error (trace fiveBranches (recent fiveBranches [])) 5
  = Some (Stdout ("[4] hotfix" ++ nl)).
Proof.
  exact (proj1 (recent_numbers_entries_in_order fiveBranches [] 3 "hotfix" eq_refl eq_refl)).
Defined.

(** *** What is scanned, split and cut *)

Lemma scanNumber_app ds suffix acc :
  allDigits ds = true -> startsWithDigit suffix = false ->
  fmt.scanNumber (ds ++ suffix) acc = fmt.scanNumber ds acc.
Proof.
  revert acc. induction ds as [|c ds IH]; intros acc Hd Hs.
  - cbn [String.append]. destruct suffix as [|a suffix]; [reflexivity|].
    cbn [startsWithDigit] in Hs. cbn [fmt.scanNumber]. rewrite Hs. reflexivity.
  - cbn [allDigits] in Hd. apply andb_true_iff in Hd. destruct Hd as [Hc Hd].
    cbn [String.append fmt.scanNumber]. rewrite Hc. apply IH; assumption.
Qed.

Lemma Sscanf_d_digit c s :
  fmt.isDigit c = true -> fmt.Sscanf_d (String c s) = fmt.scanInt (String c s) false.
Proof.
  intros H.
  destruct c as [[] [] [] [] [] [] [] []]; vm_compute in H; try discriminate; reflexivity.
Qed.

(** X22.  [recent] reads the selection with [Sscanf] and a bare [%d], which
    stops at the first byte that is not a digit and leaves the rest unread:
    a word made of a number followed by other text selects exactly what the
    number alone selects. *)
Theorem recent_ignores_text_after_the_number :
  forall (os : OS) branches c ds suffix (w : World os),
    fmt.isDigit c = true ->
    allDigits ds = true ->
    startsWithDigit suffix = false ->
    fmt.Sscanf_d (String c ds ++ suffix) = fmt.Sscanf_d (String c ds)
    /\ selectBranch os branches (String c ds ++ suffix) w
       = selectBranch os branches (String c ds) w.
Proof.
  intros os branches c ds suffix w Hc Hd Hs.
  assert (E : fmt.Sscanf_d (String c ds ++ suffix) = fmt.Sscanf_d (String c ds)).
  { cbn [String.append]. rewrite !Sscanf_d_digit by exact Hc.
    unfold fmt.scanInt. rewrite Hc.
    change (String c (ds ++ suffix)) with (String c ds ++ suffix)%string.
    rewrite (scanNumber_app (String c ds) suffix 0%Z); [reflexivity | | exact Hs].
    cbn [allDigits]. rewrite Hc, Hd. reflexivity. }
  split; [exact E|].
  unfold selectBranch. rewrite E. reflexivity.
Qed.

Lemma recent_ignores_text_witness :
  selectBranch fiveBranches ["main"; "dev"] "2nd" [] =
  (Ret tt, executed "git checkout dev" None, []).
Proof.
  exact (eq_trans
           (proj2 (recent_ignores_text_after_the_number fiveBranches ["main"; "dev"]%string
                     "2"%char "" "nd" [] eq_refl eq_refl eq_refl))
           eq_refl).
Defined.

(** A white space rune at the start of a string is still there when the
    string is extended. *)
Lemma spaceWidth_mono x y :
  strings.spaceWidth (x ++ y) = 0 -> strings.spaceWidth x = 0.
Proof.
  destruct x as [|c0 [|c1 [|c2 x]]]; [reflexivity| | |];
    cbn [String.append]; unfold strings.spaceWidth; cbv zeta;
    destruct (strings.isSpace c0); try (intros H; exact H);
    destruct (nat_of_ascii c0 =? 194)%nat; try (intros H; exact H); try reflexivity;
    destruct ((nat_of_ascii c0 =? 225) || (nat_of_ascii c0 =? 226)
              || (nat_of_ascii c0 =? 227))%nat;
    try (intros H; exact H); reflexivity.
Qed.

Lemma append_snoc cur c s : ((cur ++ String c "") ++ s = cur ++ String c s)%string.
Proof.
  induction cur as [|a cur IH]; [reflexivity|].
  cbn [String.append]. rewrite IH. reflexivity.
Qed.

Lemma cleanPrefix_noSpace cur s :
  cleanPrefix (String.length cur) (cur ++ s) = true -> noSpace cur = true.
Proof.
  induction cur as [|a cur IH]; [reflexivity|].
  cbn [String.length String.append cleanPrefix noSpace]. intros H.
  apply andb_true_iff in H. destruct H as [H0 H].
  apply Nat.eqb_eq in H0.
  change (String a (cur ++ s)) with (String a cur ++ s)%string in H0.
  rewrite (spaceWidth_mono _ _ H0). cbn [Nat.eqb andb]. apply IH, H.
Qed.

Lemma cleanPrefix_snoc cur c s :
  cleanPrefix (String.length cur) (cur ++ String c s) = true ->
  strings.spaceWidth (String c s) = 0 ->
  cleanPrefix (String.length (cur ++ String c "")) ((cur ++ String c "") ++ s) = true.
Proof.
  intros H Hc. rewrite append_snoc. revert H.
  induction cur as [|a cur IH]; cbn [String.length String.append cleanPrefix]; intros H.
  - rewrite Hc. reflexivity.
  - apply andb_true_iff in H. destruct H as [H0 H].
    rewrite H0. cbn [andb]. apply IH, H.
Qed.

(** The fields [fieldsFrom] gives are words, when no white space rune starts
    inside the field being read. *)
Lemma fieldsFrom_clean s :
  (forall skip, Forall word (strings.fieldsFrom s "" skip))
  /\ (forall cur,
         cleanPrefix (String.length cur) (cur ++ s) = true ->
         Forall word (strings.fieldsFrom s cur 0)).
Proof.
  induction s as [|c s [IH1 IH2]].
  - split.
    + intros skip. constructor.
    + intros cur H. cbn [strings.fieldsFrom].
      destruct cur as [|a cur]; cbn [strings.isEmpty]; constructor; [|constructor].
      split; [discriminate | exact (cleanPrefix_noSpace _ _ H)].
  - assert (H2 : forall cur,
               cleanPrefix (String.length cur) (cur ++ String c s) = true ->
               Forall word (strings.fieldsFrom (String c s) cur 0)).
    { intros cur H. cbn [strings.fieldsFrom].
      destruct (strings.spaceWidth (String c s)) as [|k] eqn:E.
      - apply IH2. apply cleanPrefix_snoc; assumption.
      - destruct cur as [|a cur]; cbn [strings.isEmpty]; [apply IH1|].
        constructor; [|apply IH1].
        split; [discriminate | exact (cleanPrefix_noSpace _ _ H)]. }
    split; [|exact H2].
    intros [|k]; [apply H2; reflexivity|].
    cbn [strings.fieldsFrom]. apply IH1.
Qed.

Lemma Fields_words line : Forall word (strings.Fields line).
Proof. apply (proj2 (fieldsFrom_clean line) ""%string). reflexivity. Qed.

Lemma commitHashes_words lines : Forall word (commitHashes lines).
Proof.
  induction lines as [|line lines IH]; [constructor|].
  cbn [commitHashes]. pose proof (Fields_words line) as HF.
  destruct (strings.Fields line) as [|a [|h l]]; try exact IH.
  inversion HF as [|? ? _ HF']. inversion HF' as [|? ? Hh _].
  constructor; assumption.
Qed.

Lemma candidates_words lines :
  Forall word (candidates lines)
  /\ deletions lines = map (fun branch => "git branch -d " ++ branch)%string (candidates lines).
Proof.
  induction lines as [|line lines [IH1 IH2]]; [split; [constructor | reflexivity]|].
  cbn [candidates deletions]. pose proof (Fields_words line) as HF.
  destruct (strings.Fields line) as [|b [|age l]]; try (split; assumption).
  destruct (strings.Contains age "month" || strings.Contains age "year");
    [|split; assumption].
  inversion HF as [|? ? Hb _].
  split; [constructor; assumption | cbn [map]; rewrite IH2; reflexivity].
Qed.

(** X23.  The fields a line is cut into are words: never empty and never
    holding white space, be it one of the six ASCII bytes or one of the
    white space runes beyond them.  So the processes [cherryLog] starts
    after the repository check and [git cherry] are the logs of one word
    each, one per line with two fields; and the commands [cleanup] hands to
    the shell are deletions of one word each, among the branches it asked
    about, one word being read for each of them.  The same holds of the
    bodies of the two loops in any world. *)
Theorem fields_are_single_words :
  (forall line, Forall word (strings.Fields line))
  /\ (forall (os : OS) branch (w : World os),
         branch <> ""%string ->
         err (fst (spawn os revParse w)) = None ->
         let w1 := snd (spawn os revParse w) in
         let cherry := fst (spawn os (gitCherry "master" branch) w1) in
         err cherry = None ->
         let lines := strings.Split (strings.TrimSpace (output cherry)) nl in
         spawned (trace os (cherryLog os branch w)) =
         revParse :: gitCherry "master" branch :: map gitLog (commitHashes lines)
         /\ Forall word (commitHashes lines))
  /\ (forall (os : OS) (w : World os),
         err (fst (spawn os branchAges w)) = None ->
         let lines :=
           strings.Split (strings.TrimSpace (output (fst (spawn os branchAges w)))) nl in
         Forall word (candidates lines)
         /\ List.length (typed (trace os (cleanup os w))) = List.length (candidates lines)
         /\ incl (shellCommands (trace os (cleanup os w)))
                 (map (fun branch => "git branch -d " ++ branch)%string (candidates lines)))
  /\ (forall (os : OS) line (w : World os) argv,
         In argv (spawned (trace os (cherryLine os line w))) ->
         exists commitHash, argv = gitLog commitHash /\ word commitHash)
  /\ (forall (os : OS) line (w : World os) argv,
         In argv (spawned (trace os (cleanupBranch os line w))) ->
         exists branch,
           argv = ["sh"; "-c"; ("git branch -d " ++ branch)%string] /\ word branch).
Proof.
  split; [exact Fields_words|]. split; [|split; [|split]].
  - intros os branch w Hb Hc w1 cherry He lines.
    split; [|apply commitHashes_words].
    rewrite (cherryLog_run os branch w Hb Hc He). cbn [trace fst snd spawned].
    rewrite cherryLoop_logs. reflexivity.
  - intros os w He lines.
    destruct (candidates_words lines) as [HW HD].
    split; [exact HW|]. rewrite <- HD.
    unfold cleanup. rewrite bind_run. fold branchAges. rewrite He. fold lines.
    cbn [trace fst snd typed shellCommands].
    destruct (cleanupLoop os lines (snd (spawn os branchAges w))) as (H1 & H2 & _).
    rewrite H1. split; [|exact H2].
    rewrite HD. apply length_map.
  - intros os line w argv Hin. pose proof (Fields_words line) as HF.
    destruct (strings.Fields line) as [|a [|h l]] eqn:E.
    + rewrite cherryLine_skip in Hin; [destruct Hin | rewrite E; cbn; lia].
    + rewrite cherryLine_skip in Hin; [destruct Hin | rewrite E; cbn; lia].
    + rewrite (cherryLine_run os _ _ _ _ w E) in Hin. cbn [trace fst snd] in Hin.
      inversion HF as [|? ? _ HF']. inversion HF' as [|? ? Hh _]. subst.
      exists h. split; [|exact Hh].
      destruct (err (fst (spawn os (gitLog h) w)));
        [|cbn zeta in Hin; destruct (a =? "+")%string; [|destruct (a =? "-")%string]];
        cbn [spawned In] in Hin; destruct Hin as [<-|[]]; reflexivity.
  - intros os line w argv Hin. pose proof (Fields_words line) as HF.
    rewrite cleanupBranch_eq in Hin.
    destruct (strings.Fields line) as [|b [|age l]] eqn:E; try (destruct Hin; fail).
    destruct (strings.Contains age "month" || strings.Contains age "year");
      [|destruct Hin]. cbn zeta in Hin.
    inversion HF as [|? ? Hb _]. subst.
    destruct ((_ =? "y") || (_ =? "Y"))%string; cbn [trace fst snd spawned] in Hin;
      [|destruct Hin].
    exists b. split; [|exact Hb].
    destruct (err _); cbn [executed spawned In] in Hin; destruct Hin as [<-|[]]; reflexivity.
Qed.

Lemma splitFrom_join c s : forall cur,
  without c cur = true ->
  String.concat (String c "") (strings.splitFrom (String c "") s 0 cur) = (cur ++ s)%string
  /\ Forall (fun piece => without c piece = true) (strings.splitFrom (String c "") s 0 cur).
Proof.
  induction s as [|a s IH]; intros cur Hcur.
  - cbn [strings.splitFrom String.concat]. split; [|repeat constructor; exact Hcur].
    induction cur as [|x cur IHc]; [reflexivity|].
    cbn [String.append]. f_equal. apply IHc.
    cbn [without] in Hcur. apply andb_true_iff in Hcur. tauto.
  - cbn [strings.splitFrom prefix String.length Nat.sub].
    destruct (ascii_dec c a) as [<-|Hne].
    + assert (Hp : prefix "" s = true) by (destruct s; reflexivity).
      rewrite Hp.
      destruct (IH ""%string eq_refl) as [J F].
      split; [|constructor; [exact Hcur | exact F]].
      cbn [String.concat].
      destruct (strings.splitFrom (String c "") s 0 "") as [|p ps] eqn:E;
        [exfalso; exact (splitFrom_nonempty _ _ _ _ E)|].
      rewrite J. reflexivity.
    + assert (Hcur' : without c (cur ++ String a "") = true).
      { clear IH. induction cur as [|x cur IHc].
        - cbn [String.append without]. destruct (Ascii.eqb_spec a c); [congruence | reflexivity].
        - cbn [String.append without] in *. apply andb_true_iff in Hcur.
          destruct Hcur as [Hx Hcur]. rewrite Hx. cbn [andb]. apply IHc, Hcur. }
      destruct (IH _ Hcur') as [J F]. split; [|exact F].
      rewrite J. clear. induction cur as [|x cur IHc]; [reflexivity|].
      cbn [String.append]. f_equal. exact IHc.
Qed.

(** X24.  Cutting the output of a child into lines loses nothing: the pieces
    [strings.Split] gives for the line feed, joined by line feeds, are the
    string that was cut, and no piece holds a line feed. *)
Theorem Split_lines_round_trip :
  forall s,
    String.concat nl (strings.Split s nl) = s
    /\ Forall (fun piece => without (ascii_of_nat 10) piece = true) (strings.Split s nl).
Proof.
  intros s. unfold strings.Split, nl. cbn [strings.isEmpty].
  exact (splitFrom_join (ascii_of_nat 10) s ""%string eq_refl).
Qed.

Lemma fields_are_single_words_witness :
  (spawned (trace withCherry (cherryLog withCherry "feature" [])) =
   [revParse; gitCherry "master" "feature"; gitLog "abc123"; gitLog "def456"; gitLog "0a1b2c"]
   /\ Forall word ["abc123"; "def456"; "0a1b2c"]%string)
  /\ (Forall word ["topic"; "legacy"]%string
      /\ List.length (typed (trace oneWordAges (cleanup oneWordAges ["y"; "n"]))) = 2
      /\ incl (shellCommands (trace oneWordAges (cleanup oneWordAges ["y"; "n"])))
              ["git branch -d topic"; "git branch -d legacy"]%string).
Proof.
  split.
  - exact (proj1 (proj2 fields_are_single_words) withCherry "feature"%string []
             ltac:(discriminate) eq_refl eq_refl).
  - exact (proj1 (proj2 (proj2 fields_are_single_words)) oneWordAges ["y"; "n"]%string
             eq_refl).
Defined.
